(** * useOneLakeCatalog: the OneLake file-browser hook

    A shallow embedding of the catalog hook of the IntuigenceApp item
    (file-extension predicates, the catalog build [loadFiles], the preview
    life cycle [selectFile] / [closePreview] / unmount, and the search
    filter), followed by the properties the specification states about it.

    Conventions.
    - JavaScript strings are modelled by [string]; a character is a code
      unit in the Latin-1 range.  [toLowerCase] is exact on that range.
    - A call that may reject is a [Result]; what the code logs or does to
      the object-URL store is recorded as a list of [Effect]s.
    - [setState (prev => ...)] is an [Updater]; an asynchronous function is
      cut at its [await]s into the updaters it enqueues. *)

From Stdlib Require Import String Ascii ZArith List Bool Lia.
From stdpp Require Import base list strings gmap pretty.

Open Scope string_scope.
Open Scope list_scope.

(* ===================================================================== *)
(** ** JavaScript string primitives used by the hook                      *)
(* ===================================================================== *)

Module Js.

(** Truthiness of a string: only the empty string is falsy. *)
Definition truthy (s : string) : bool :=
  match s with EmptyString => false | String _ _ => true end.

(** [a || b] on strings. *)
Definition orElse (a b : string) : string := if truthy a then a else b.

(** [a || b] where [a] may be [undefined] / [null]. *)
Definition orElseOpt (a : option string) (b : string) : string :=
  match a with Some s => orElse s b | None => b end.

(** [!x] for a nullable string. *)
Definition truthyOpt (a : option string) : bool :=
  match a with Some s => truthy s | None => false end.

(** [s.startsWith(p)]. *)
Definition startsWith (s p : string) : bool := String.prefix p s.

(** [s.substring(n)]: the text from index [n] on. *)
Fixpoint substring (n : nat) (s : string) : string :=
  match n, s with
  | O, _ => s
  | S _, EmptyString => EmptyString
  | S n', String _ s' => substring n' s'
  end.

(** [s.split(sep)] for a one-character separator.  The result always has
    at least one segment. *)
Fixpoint split (sep : ascii) (s : string) : list string :=
  match s with
  | EmptyString => [EmptyString]
  | String c s' =>
      if Ascii.eqb c sep then EmptyString :: split sep s'
      else match split sep s' with
           | seg :: rest => String c seg :: rest
           | [] => [String c EmptyString]
           end
  end.

(** [arr.pop()]: the last element, [undefined] on an empty array. *)
Definition pop (l : list string) : option string := last l.

(** One code unit of [toLowerCase]: [A-Z] and the Latin-1 capitals
    [U+00C0 .. U+00DE] without the multiplication sign [U+00D7]. *)
Definition lowerChar (c : ascii) : ascii :=
  let n := nat_of_ascii c in
  if (((65 <=? n) && (n <=? 90))
      || ((192 <=? n) && (n <=? 222) && negb (n =? 215)))%nat
  then ascii_of_nat (n + 32) else c.

(** [s.toLowerCase()]. *)
Fixpoint toLowerCase (s : string) : string :=
  match s with
  | EmptyString => EmptyString
  | String c s' => String (lowerChar c) (toLowerCase s')
  end.

(** [s.includes(q)]: [q] occurs in [s] at some index. *)
Fixpoint includes (s q : string) : bool :=
  startsWith s q ||
  match s with
  | EmptyString => false
  | String _ s' => includes s' q
  end.

End Js.

(* ===================================================================== *)
(** ** File-extension predicates                                          *)
(* ===================================================================== *)

Definition PREVIEWABLE_EXTENSIONS : gset string :=
  {[ "pdf"; "png"; "jpg"; "jpeg"; "gif"; "webp"; "svg" ]}.

Definition IMAGE_EXTENSIONS : gset string :=
  {[ "png"; "jpg"; "jpeg"; "gif"; "webp"; "svg" ]}.

Definition getFileExtension (name : string) : string :=
  Js.toLowerCase (Js.orElseOpt (Js.pop (Js.split "." name)) "").

Definition isPreviewable (name : string) : bool :=
  bool_decide (getFileExtension name ∈ PREVIEWABLE_EXTENSIONS).

Definition isImage (name : string) : bool :=
  bool_decide (getFileExtension name ∈ IMAGE_EXTENSIONS).

Definition isPdf (name : string) : bool :=
  bool_decide (getFileExtension name = "pdf").

(* ===================================================================== *)
(** ** Values of unknown type: what a rejected call throws                *)
(* ===================================================================== *)

(** A value read from a field of unknown type.  Numbers are the integral
    ones that print in plain decimal (magnitude below 1e21);
    [JsOpaque text] is any other value, given by its string
    conversion. *)
Inductive JsValue :=
| JsUndefined
| JsNull
| JsBool (b : bool)
| JsNumber (n : Z)
| JsString (s : string)
| JsOpaque (text : string).

Module JsVal.

(** Truthiness. *)
Definition truthy (v : JsValue) : bool :=
  match v with
  | JsUndefined | JsNull => false
  | JsBool b => b
  | JsNumber n => negb (n =? 0)%Z
  | JsString s => Js.truthy s
  | JsOpaque _ => true
  end.

(** [String(v)], also the conversion a template literal applies. *)
Definition toText (v : JsValue) : string :=
  match v with
  | JsUndefined => "undefined"
  | JsNull => "null"
  | JsBool true => "true"
  | JsBool false => "false"
  | JsNumber n => pretty n
  | JsString s => s
  | JsOpaque text => text
  end.

(** [Number(v)]; [None] is NaN.  [parse] is the runtime's conversion of
    a string to a number. *)
Definition toNumber (parse : string -> option Z) (v : JsValue) : option Z :=
  match v with
  | JsUndefined => None
  | JsNull => Some 0%Z
  | JsBool true => Some 1%Z
  | JsBool false => Some 0%Z
  | JsNumber n => Some n
  | JsString s => parse s
  | JsOpaque text => parse text
  end.

(** [n || 0] on a number: NaN and 0 are falsy. *)
Definition orZero (n : option Z) : Z :=
  match n with Some z => z | None => 0%Z end.

End JsVal.

(** A thrown object: whether it is an [Error] instance, the four fields
    [getErrorMessage] inspects, and its [JSON.stringify] text. *)
Module ErrorObject.
Record t := {
  instanceOfError : bool;
  error : JsValue;
  message : JsValue;
  statusCode : JsValue;
  statusText : JsValue;
  json : string
}.
End ErrorObject.

Inductive Thrown :=
| ThrowNullish
| ThrowBool (b : bool)
| ThrowNumber (n : Z)
| ThrowString (s : string)
| ThrowObject (o : ErrorObject.t).

Definition WORKLOAD_AUTH_ERROR_MESSAGES : gmap Z string :=
  list_to_map
    [ (0%Z, "Authentication is not supported in this environment. Open this workload through the Fabric portal (https://app.fabric.microsoft.com) instead of localhost.");
      (1%Z, "User interaction failed during authentication. Please try again.");
      (2%Z, "Workload authentication configuration error. Verify that your Entra App registration (FRONTEND_APPID) and redirect URIs are configured correctly.") ].

(** [typeof v === "number" && v in TABLE ? TABLE[v] : undefined]. *)
Definition authErrorMessage (v : JsValue) : option string :=
  match v with
  | JsNumber n => WORKLOAD_AUTH_ERROR_MESSAGES !! n
  | _ => None
  end.

(** The object branch of [getErrorMessage]; [None] when no field applies. *)
Definition objectMessage (obj : ErrorObject.t) : option string :=
  match authErrorMessage (ErrorObject.error obj) with
  | Some msg => Some msg
  | None =>
      match ErrorObject.error obj with
      | JsString e => Some e
      | _ =>
          match ErrorObject.message obj with
          | JsString m => Some m
          | _ =>
              match ErrorObject.statusCode obj with
              | JsNumber code =>
                  Some ("HTTP " +:+ pretty code +:+ ": " +:+
                        (if JsVal.truthy (ErrorObject.statusText obj)
                         then JsVal.toText (ErrorObject.statusText obj)
                         else "Request failed"))
              | _ => None
              end
          end
      end
  end.

Definition getErrorMessage (err : Thrown) : string :=
  match err with
  | ThrowNullish | ThrowBool false => "Unknown error"
  | ThrowBool true => "true"
  | ThrowNumber n => if (n =? 0)%Z then "Unknown error" else pretty n
  | ThrowString s => if Js.truthy s then s else "Unknown error"
  | ThrowObject o =>
      if ErrorObject.instanceOfError o && JsVal.truthy (ErrorObject.message o)
      then JsVal.toText (ErrorObject.message o)
      else match objectMessage o with
           | Some msg => msg
           | None => ErrorObject.json o
           end
  end.

(** The outcome of an awaited call. *)
Inductive Result (A : Type) :=
| Ok (a : A)
| Throw (e : Thrown).
Arguments Ok {A} a.
Arguments Throw {A} e.

(* ===================================================================== *)
(** ** Types                                                              *)
(* ===================================================================== *)

Module OneLakeFile.
Record t := {
  fullPath : string;
  name : string;
  relativePath : string;
  size : Z;
  lastModified : string;
  lakehouseName : string;
  lakehouseId : string
}.
End OneLakeFile.

Module FilePreview.
Record t := {
  file : OneLakeFile.t;
  blobUrl : option string;
  loading : bool;
  error : option string
}.
End FilePreview.

Module State.
(** [OneLakeFileBrowserState]. *)
Record t := {
  files : list OneLakeFile.t;
  selectedFile : option FilePreview.t;
  loading : bool;
  error : option string;
  workspaceId : option string;
  searchQuery : string
}.

(** The argument of [useState]. *)
Definition initial : t :=
  {| files := []; selectedFile := None; loading := false; error := None;
     workspaceId := None; searchQuery := "" |}.
End State.

(** [setState(prev => ...)]. *)
Definition Updater := State.t -> State.t.

(** What the platform clients return. *)
Module Workspace.
Record t := { id : string }.
End Workspace.

Module Item.
Record t := { id : string; displayName : string; type : string }.
End Item.

Module GetItemResult.
Record info := { workspaceId : option string }.
Record t := { item : option info }.
End GetItemResult.

Module PathEntry.
Record t := {
  name : string;
  isDirectory : JsValue;
  contentLength : JsValue;
  lastModified : option string
}.
End PathEntry.

Module PathMetadata.
Record t := { paths : option (list PathEntry.t) }.
End PathMetadata.

(** [workloadClient.itemCrud.getItem({ itemId })]; the result may be
    nullish. *)
Record WorkloadClientAPI := {
  getItem : string -> Result (option GetItemResult.t)
}.

(** The calls the hook makes on [clientRef.current]. *)
Record FabricPlatformAPIClient := {
  getAllWorkspaces : Result (list Workspace.t);
  getAllItems : string -> Result (list Item.t);
  getPathMetadata : string -> string -> bool -> bool -> Result PathMetadata.t
}.

(** Observable side effects: console output and the object-URL store. *)
Inductive Effect :=
| ConsoleWarn (msg : string) (e : Thrown)
| ConsoleError (msg : string) (e : Thrown)
| CreateObjectURL (url : string)
| RevokeObjectURL (url : string)
| AnchorClick (href download : string).

(* ===================================================================== *)
(** ** The hook                                                           *)
(* ===================================================================== *)

(** The double-quote character of the per-Lakehouse warning. *)
Definition dquote : string := String (ascii_of_nat 34) EmptyString.

(** The [setState] a catalog build ends with. *)
Inductive Settled :=
| NoWorkspace
| NoLakehouses (workspaceId : string)
| Listed (workspaceId : string) (allFiles : list OneLakeFile.t)
| Failed (err : Thrown).

(** What the awaited part of [selectFile] produced: the object URL made by
    [URL.createObjectURL], or the value thrown before one was made. *)
Inductive FetchOutcome :=
| Loaded (blobUrl : string)
| FetchFailed (err : Thrown).

Section Catalog.

(** [OneLakeStorageClient.getPath (workspaceId, itemId, path)]: a static
    helper of the storage client, which is not part of these sources. *)
Variable getPath : string -> string -> string -> string.

(** The runtime's conversion of a string to a number ([None] is NaN). *)
Variable parseNumber : string -> option Z.

(** *** Catalog build: [loadFiles] *)

(** [String(p.isDirectory) === "true"]. *)
Definition isDirectoryEntry (p : PathEntry.t) : bool :=
  String.eqb (JsVal.toText (PathEntry.isDirectory p)) "true".

(** The third argument of [getPath]: the part of [p.name] after
    ["{lakehouseId}/"]. *)
Definition itemPath (lakehouseId pname : string) : string :=
  if Js.startsWith pname (lakehouseId +:+ "/")
  then Js.substring (String.length lakehouseId + 1) pname
  else pname.

(** Relative path within [Files/]. *)
Definition relativePathOf (lakehouseId pname : string) : string :=
  let filesPrefix := lakehouseId +:+ "/Files/" in
  if Js.startsWith pname filesPrefix
  then Js.substring (String.length filesPrefix) pname
  else pname.

(** [relativePath.split("/").pop() || relativePath]. *)
Definition fileNameOf (relativePath : string) : string :=
  Js.orElseOpt (Js.pop (Js.split "/" relativePath)) relativePath.

(** The record pushed for a listing entry that is not a directory. *)
Definition toFile (workspaceId : string) (lakehouse : Item.t)
    (p : PathEntry.t) : OneLakeFile.t :=
  let fullPath :=
    getPath workspaceId (Item.id lakehouse)
            (itemPath (Item.id lakehouse) (PathEntry.name p)) in
  let relativePath := relativePathOf (Item.id lakehouse) (PathEntry.name p) in
  let fileName := fileNameOf relativePath in
  {| OneLakeFile.fullPath := fullPath;
     OneLakeFile.name := fileName;
     OneLakeFile.relativePath := relativePath;
     OneLakeFile.size :=
       JsVal.orZero (JsVal.toNumber parseNumber (PathEntry.contentLength p));
     OneLakeFile.lastModified := Js.orElseOpt (PathEntry.lastModified p) "";
     OneLakeFile.lakehouseName := Item.displayName lakehouse;
     OneLakeFile.lakehouseId := Item.id lakehouse |}.

(** The inner loop: [for (const p of metadata.paths || [])]. *)
Definition pushPaths (workspaceId : string) (lakehouse : Item.t)
    (allFiles : list OneLakeFile.t) (paths : list PathEntry.t)
    : list OneLakeFile.t :=
  fold_left
    (fun allFiles p =>
       if isDirectoryEntry p then allFiles
       else allFiles ++ [toFile workspaceId lakehouse p])
    paths allFiles.

(** The [console.warn] of the inner [catch]. *)
Definition lakehouseWarning (lakehouse : Item.t) (e : Thrown) : Effect :=
  ConsoleWarn ("Failed to list files in Lakehouse " +:+ dquote +:+
               Item.displayName lakehouse +:+ dquote +:+ ":") e.

(** One turn of the outer loop: the [try] / [catch] around one
    Lakehouse.  The accumulator is the console output so far and
    [allFiles]. *)
Definition listLakehouse (client : FabricPlatformAPIClient)
    (workspaceId : string) (acc : list Effect * list OneLakeFile.t)
    (lakehouse : Item.t) : list Effect * list OneLakeFile.t :=
  let filesPath := Item.id lakehouse +:+ "/Files" in
  match getPathMetadata client workspaceId filesPath true false with
  | Ok metadata =>
      (acc.1,
       pushPaths workspaceId lakehouse acc.2
                 (default [] (PathMetadata.paths metadata)))
  | Throw e =>
      (acc.1 ++ [lakehouseWarning lakehouse e], acc.2)
  end.

(** Step 3: [for (const lakehouse of lakehouses)]. *)
Definition listLakehouses (client : FabricPlatformAPIClient)
    (workspaceId : string) (lakehouses : list Item.t)
    : list Effect * list OneLakeFile.t :=
  fold_left (listLakehouse client workspaceId) lakehouses ([], []).

Definition isLakehouse (item : Item.t) : bool :=
  String.eqb (Item.type item) "Lakehouse".

(** Steps 2 and 3, once [workspaceId] is known. *)
Definition listWorkspace (client : FabricPlatformAPIClient)
    (workspaceId : string) : list Effect * Settled :=
  match getAllItems client workspaceId with
  | Throw e => ([], Failed e)
  | Ok allItems =>
      let lakehouses := List.filter isLakehouse allItems in
      match lakehouses with
      | [] => ([], NoLakehouses workspaceId)
      | _ :: _ =>
          let r := listLakehouses client workspaceId lakehouses in
          (r.1, Listed workspaceId r.2)
      end
  end.

(** [x || null]. *)
Definition orNull (x : option string) : option string :=
  if Js.truthyOpt x then x else None.

(** [itemResult?.item?.workspaceId]. *)
Definition itemWorkspaceId (itemResult : option GetItemResult.t)
    : option string :=
  match itemResult with
  | Some r =>
      match GetItemResult.item r with
      | Some i => GetItemResult.workspaceId i
      | None => None
      end
  | None => None
  end.

(** Step 1, first half: the workspace of the current item. *)
Definition workspaceOfItem (workloadClient : WorkloadClientAPI)
    (itemObjectId : option string) : list Effect * option string :=
  match itemObjectId with
  | Some itemId =>
      if Js.truthy itemId then
        match getItem workloadClient itemId with
        | Ok itemResult =>
            ([], orNull (itemWorkspaceId itemResult))
        | Throw e =>
            ([ConsoleWarn "Could not resolve workspace from item:" e], None)
        end
      else ([], None)
  | None => ([], None)
  end.

(** Step 1, with the fallback to the first accessible workspace.  The
    result is the local [workspaceId] at the [if (!workspaceId)] test, or
    what [getAllWorkspaces] threw. *)
Definition resolveWorkspace (workloadClient : WorkloadClientAPI)
    (client : FabricPlatformAPIClient) (itemObjectId : option string)
    : list Effect * Result (option string) :=
  let r := workspaceOfItem workloadClient itemObjectId in
  if Js.truthyOpt r.2 then (r.1, Ok r.2)
  else
    match getAllWorkspaces client with
    | Ok workspaces =>
        (r.1, Ok (match workspaces with
                  | w :: _ => Some (Workspace.id w)
                  | [] => r.2
                  end))
    | Throw e => (r.1, Throw e)
    end.

(** The body of the outer [try], up to the [setState] it ends with. *)
Definition loadFilesTry (workloadClient : WorkloadClientAPI)
    (client : FabricPlatformAPIClient) (itemObjectId : option string)
    : list Effect * Settled :=
  let r := resolveWorkspace workloadClient client itemObjectId in
  match r.2 with
  | Throw e => (r.1, Failed e)
  | Ok workspaceId =>
      match workspaceId with
      | Some ws =>
          if Js.truthy ws then
            let l := listWorkspace client ws in (r.1 ++ l.1, l.2)
          else (r.1, NoWorkspace)
      | None => (r.1, NoWorkspace)
      end
  end.

(** The outer [catch] logs what was thrown. *)
Definition loadFilesRun (workloadClient : WorkloadClientAPI)
    (client : FabricPlatformAPIClient) (itemObjectId : option string)
    : list Effect * Settled :=
  let r := loadFilesTry workloadClient client itemObjectId in
  match r.2 with
  | Failed err => (r.1 ++ [ConsoleError "Failed to load files:" err], r.2)
  | _ => r
  end.

(** [setState(prev => ({ ...prev, loading: true, error: null }))]. *)
Definition loadFilesBegin : Updater := fun prev =>
  {| State.files := State.files prev;
     State.selectedFile := State.selectedFile prev;
     State.loading := true;
     State.error := None;
     State.workspaceId := State.workspaceId prev;
     State.searchQuery := State.searchQuery prev |}.

(** The final [setState] of a build, by the way the build ended. *)
Definition loadFilesCommit (s : Settled) : Updater := fun prev =>
  match s with
  | NoWorkspace =>
      {| State.files := State.files prev;
         State.selectedFile := State.selectedFile prev;
         State.loading := false;
         State.error :=
           Some "No workspace found. Please ensure you have access to a Fabric workspace.";
         State.workspaceId := State.workspaceId prev;
         State.searchQuery := State.searchQuery prev |}
  | NoLakehouses workspaceId =>
      {| State.files := [];
         State.selectedFile := State.selectedFile prev;
         State.loading := false;
         State.error :=
           Some "No Lakehouses found in this workspace. Create a Lakehouse and upload files to see them here.";
         State.workspaceId := Some workspaceId;
         State.searchQuery := State.searchQuery prev |}
  | Listed workspaceId allFiles =>
      {| State.files := allFiles;
         State.selectedFile := State.selectedFile prev;
         State.loading := false;
         State.error := State.error prev;
         State.workspaceId := Some workspaceId;
         State.searchQuery := State.searchQuery prev |}
  | Failed err =>
      {| State.files := State.files prev;
         State.selectedFile := State.selectedFile prev;
         State.loading := false;
         State.error := Some (getErrorMessage err);
         State.workspaceId := State.workspaceId prev;
         State.searchQuery := State.searchQuery prev |}
  end.

(** A whole build with no other update in between.  [clientRef] is
    [clientRef.current]; without a client the call returns at once. *)
Definition loadFiles (workloadClient : WorkloadClientAPI)
    (clientRef : option FabricPlatformAPIClient)
    (itemObjectId : option string) (st : State.t)
    : list Effect * State.t :=
  match clientRef with
  | None => ([], st)
  | Some client =>
      let r := loadFilesRun workloadClient client itemObjectId in
      (r.1, loadFilesCommit r.2 (loadFilesBegin st))
  end.

End Catalog.

(** *** Preview: [selectFile], [closePreview], [downloadFile] *)

(** [if (prev.selectedFile?.blobUrl) URL.revokeObjectURL(...)]: the
    release both [selectFile] and [closePreview] do inside their updater,
    and the unmount clean-up does on the state it closed over. *)
Definition revokeBlobUrl (st : State.t) : list Effect :=
  match State.selectedFile st with
  | Some preview =>
      match FilePreview.blobUrl preview with
      | Some url => if Js.truthy url then [RevokeObjectURL url] else []
      | None => []
      end
  | None => []
  end.

Definition withSelectedFile (sel : option FilePreview.t) : Updater :=
  fun prev =>
    {| State.files := State.files prev;
       State.selectedFile := sel;
       State.loading := State.loading prev;
       State.error := State.error prev;
       State.workspaceId := State.workspaceId prev;
       State.searchQuery := State.searchQuery prev |}.

(** [selectFile], up to its [await]: revoke the previous blob URL and show
    the file as loading. *)
Definition selectFileBegin (file : OneLakeFile.t) (prev : State.t)
    : list Effect * State.t :=
  (revokeBlobUrl prev,
   withSelectedFile
     (Some {| FilePreview.file := file; FilePreview.blobUrl := None;
              FilePreview.loading := true; FilePreview.error := None |})
     prev).

(** [selectFile], after its [await]: the [try] ends in an object URL, or
    the [catch] records the failure.  Neither updater looks at
    [prev.selectedFile]. *)
Definition selectFileSettle (file : OneLakeFile.t) (o : FetchOutcome)
    (prev : State.t) : list Effect * State.t :=
  match o with
  | Loaded blobUrl =>
      ([CreateObjectURL blobUrl],
       withSelectedFile
         (Some {| FilePreview.file := file;
                  FilePreview.blobUrl := Some blobUrl;
                  FilePreview.loading := false;
                  FilePreview.error := None |})
         prev)
  | FetchFailed err =>
      ([ConsoleError "Failed to load file:" err],
       withSelectedFile
         (Some {| FilePreview.file := file;
                  FilePreview.blobUrl := None;
                  FilePreview.loading := false;
                  FilePreview.error :=
                    Some ("Failed to load file: " +:+ getErrorMessage err) |})
         prev)
  end.

Definition closePreview (prev : State.t) : list Effect * State.t :=
  (revokeBlobUrl prev, withSelectedFile None prev).

Definition downloadFile (st : State.t) : list Effect :=
  match State.selectedFile st with
  | Some preview =>
      match FilePreview.blobUrl preview with
      | Some url =>
          if Js.truthy url
          then [AnchorClick url (OneLakeFile.name (FilePreview.file preview))]
          else []
      | None => []
      end
  | None => []
  end.

(** *** Search and error *)

Definition setSearchQuery (query : string) : Updater := fun prev =>
  {| State.files := State.files prev;
     State.selectedFile := State.selectedFile prev;
     State.loading := State.loading prev;
     State.error := State.error prev;
     State.workspaceId := State.workspaceId prev;
     State.searchQuery := query |}.

Definition clearError : Updater := fun prev =>
  {| State.files := State.files prev;
     State.selectedFile := State.selectedFile prev;
     State.loading := State.loading prev;
     State.error := None;
     State.workspaceId := State.workspaceId prev;
     State.searchQuery := State.searchQuery prev |}.

(** The predicate of [state.files.filter(...)]. *)
Definition matchesQuery (searchQuery : string) (f : OneLakeFile.t) : bool :=
  Js.includes (Js.toLowerCase (OneLakeFile.name f))
              (Js.toLowerCase searchQuery)
  || Js.includes (Js.toLowerCase (OneLakeFile.lakehouseName f))
                 (Js.toLowerCase searchQuery).

(** [filteredFiles], returned by the hook as [files]. *)
Definition filteredFiles (st : State.t) : list OneLakeFile.t :=
  if Js.truthy (State.searchQuery st)
  then List.filter (matchesQuery (State.searchQuery st)) (State.files st)
  else State.files st.

(** *** The mounted hook *)

Module Hook.

(** A mounted instance.  [state] is the state of the latest render.
    [mountState] is the [state] constant of the FIRST render: the effect
    [useEffect(() => { return () => { if (state.selectedFile?.blobUrl)
    ... } }, [])] has the dependency list [[]], so it runs once, after
    the first render, and the clean-up it returns closes over that
    render's [state] for good.  [effects] is every effect so far, oldest
    first. *)
Record t := {
  state : State.t;
  clientRef : option FabricPlatformAPIClient;
  mountState : State.t;
  effects : list Effect
}.

(** First render and its effects: [useState] yields the initial state,
    the client effect fills [clientRef], the clean-up effect is created. *)
Definition mount (client : FabricPlatformAPIClient) : t :=
  {| state := State.initial;
     clientRef := Some client;
     mountState := State.initial;
     effects := [] |}.

(** What can happen to a mounted hook.  An asynchronous command is two
    events: the call, which runs to the first [await], and its
    settlement, which runs the rest. *)
Inductive Event :=
| LoadFilesCalled
| LoadFilesSettled (log : list Effect) (s : Settled)
| SelectFileCalled (file : OneLakeFile.t)
| SelectFileSettled (file : OneLakeFile.t) (o : FetchOutcome)
| ClosePreview
| DownloadFile
| SetSearchQuery (query : string)
| ClearError.

Definition update (h : t) (r : list Effect * State.t) : t :=
  {| state := r.2; clientRef := clientRef h; mountState := mountState h;
     effects := effects h ++ r.1 |}.

Definition step (h : t) (ev : Event) : t :=
  match ev with
  | LoadFilesCalled =>
      match clientRef h with
      | Some _ => update h ([], loadFilesBegin (state h))
      | None => h
      end
  | LoadFilesSettled log s => update h (log, loadFilesCommit s (state h))
  | SelectFileCalled file =>
      match clientRef h with
      | Some _ => update h (selectFileBegin file (state h))
      | None => h
      end
  | SelectFileSettled file o => update h (selectFileSettle file o (state h))
  | ClosePreview => update h (closePreview (state h))
  | DownloadFile => update h (downloadFile (state h), state h)
  | SetSearchQuery query => update h ([], setSearchQuery query (state h))
  | ClearError => update h ([], clearError (state h))
  end.

Definition run (h : t) (evs : list Event) : t := fold_left step evs h.

(** The clean-up of the unmount effect, run on the state it closed
    over. *)
Definition unmount (h : t) : list Effect := revokeBlobUrl (mountState h).

(** [URL.revokeObjectURL]: the first occurrence of [url] leaves the
    store; an unknown [url] changes nothing. *)
Fixpoint revoke (url : string) (store : list string) : list string :=
  match store with
  | [] => []
  | u :: store' => if String.eqb u url then store' else u :: revoke url store'
  end.

(** The object URLs that are live after a sequence of effects. *)
Definition live (effects : list Effect) : list string :=
  fold_left
    (fun store e =>
       match e with
       | CreateObjectURL url => store ++ [url]
       | RevokeObjectURL url => revoke url store
       | _ => store
       end)
    effects [].

(** The blob URL the state holds, if any. *)
Definition held (st : State.t) : option string :=
  match State.selectedFile st with
  | Some preview =>
      match FilePreview.blobUrl preview with
      | Some url => if Js.truthy url then Some url else None
      | None => None
      end
  | None => None
  end.

(** The store holds exactly the blob URL of the state: nothing leaked,
    nothing released that is still shown. *)
Definition Owned (h : t) : Prop :=
  live (effects h) = option_list (held (state h)).

End Hook.

(* ===================================================================== *)
(** ** The specification's vocabulary                                     *)
(* ===================================================================== *)

(** [c] occurs in [s]. *)
Fixpoint hasChar (c : ascii) (s : string) : bool :=
  match s with
  | EmptyString => false
  | String d s' => Ascii.eqb d c || hasChar c s'
  end.

(** [seg] is the final [sep]-separated segment of [s]: the text after the
    last [sep], or all of [s] when [s] has no [sep]. *)
Definition LastSegment (sep : ascii) (s seg : string) : Prop :=
  hasChar sep seg = false /\
  (s = seg \/ exists pre, s = pre +:+ String sep seg).

(** [q] occurs in [s] as a substring. *)
Definition Substring (q s : string) : Prop :=
  exists pre post, s = pre +:+ q +:+ post.

(** A file matches a query: its name or its container name, lowercased,
    contains the lowercased query. *)
Definition Matches (query : string) (f : OneLakeFile.t) : Prop :=
  Substring (Js.toLowerCase query) (Js.toLowerCase (OneLakeFile.name f)) \/
  Substring (Js.toLowerCase query)
            (Js.toLowerCase (OneLakeFile.lakehouseName f)).

(** [l'] is the subsequence of [l] made of its elements that satisfy [P],
    in the order of [l]. *)
Inductive SubsequenceWhere {A : Type} (P : A -> Prop)
  : list A -> list A -> Prop :=
| subseq_nil : SubsequenceWhere P [] []
| subseq_keep x l l' :
    P x -> SubsequenceWhere P l l' -> SubsequenceWhere P (x :: l) (x :: l')
| subseq_drop x l l' :
    ~ P x -> SubsequenceWhere P l l' -> SubsequenceWhere P (x :: l) l'.

(** The reading of the flattening rule that takes [name] to be the final
    ["/"]-separated segment of [relativePath] in every case (with no
    separator that segment is the whole path). *)
Definition NameIsFinalSegment (containerId entryName : string) : Prop :=
  forall seg,
    LastSegment "/" (relativePathOf containerId entryName) seg ->
    fileNameOf (relativePathOf containerId entryName) = seg.

(** An entry the listing flags as a directory. *)
Definition FlaggedDirectory (p : PathEntry.t) : Prop :=
  PathEntry.isDirectory p = JsBool true \/
  PathEntry.isDirectory p = JsString "true".

(** What one Lakehouse contributes to a build, read off the listing call. *)
Section ListingView.

Variable getPath : string -> string -> string -> string.
Variable parseNumber : string -> option Z.
Variable client : FabricPlatformAPIClient.
Variable workspaceId : string.

(** The entries the recursive listing of a Lakehouse returns; none when
    the call fails. *)
Definition entriesOf (lakehouse : Item.t) : list PathEntry.t :=
  match getPathMetadata client workspaceId
                        (Item.id lakehouse +:+ "/Files") true false with
  | Ok metadata => default [] (PathMetadata.paths metadata)
  | Throw _ => []
  end.

(** Those of them that are not skipped as directories. *)
Definition fileEntriesOf (lakehouse : Item.t) : list PathEntry.t :=
  List.filter (fun p => negb (isDirectoryEntry p)) (entriesOf lakehouse).

Definition filesOf (lakehouse : Item.t) : list OneLakeFile.t :=
  toFile getPath parseNumber workspaceId lakehouse
    <$> fileEntriesOf lakehouse.

(** The warning logged for a Lakehouse whose listing fails. *)
Definition warningsOf (lakehouse : Item.t) : list Effect :=
  match getPathMetadata client workspaceId
                        (Item.id lakehouse +:+ "/Files") true false with
  | Ok _ => []
  | Throw e => [lakehouseWarning lakehouse e]
  end.


End ListingView.

(** No two records of the snapshot share a [fullPath]. *)
Definition FullPathsUnique (st : State.t) : Prop :=
  NoDup (OneLakeFile.fullPath <$> State.files st).

(** A small workspace used to exercise the statements: Lakehouse [lhA],
    whose listing is refused, Lakehouse [lhB], with a folder and a file in
    it, and a notebook. *)
Module Sample.

Definition getPath (workspaceId itemId path : string) : string :=
  workspaceId +:+ "/" +:+ itemId +:+ "/" +:+ path.

Definition parseNumber (s : string) : option Z :=
  if String.eqb s "2048" then Some 2048%Z else None.

Definition lhA : Item.t :=
  {| Item.id := "lhA"; Item.displayName := "Alpha";
     Item.type := "Lakehouse" |}.

Definition lhB : Item.t :=
  {| Item.id := "lhB"; Item.displayName := "Beta";
     Item.type := "Lakehouse" |}.

Definition notebook : Item.t :=
  {| Item.id := "nb1"; Item.displayName := "Scratch";
     Item.type := "Notebook" |}.

Definition folder : PathEntry.t :=
  {| PathEntry.name := "lhB/Files/sub";
     PathEntry.isDirectory := JsString "true";
     PathEntry.contentLength := JsString "0";
     PathEntry.lastModified := Some "Mon, 01 Jan 2024 00:00:00 GMT" |}.

Definition doc : PathEntry.t :=
  {| PathEntry.name := "lhB/Files/sub/doc.pdf";
     PathEntry.isDirectory := JsUndefined;
     PathEntry.contentLength := JsString "2048";
     PathEntry.lastModified := None |}.

Definition forbidden : Thrown :=
  ThrowObject
    {| ErrorObject.instanceOfError := false;
       ErrorObject.error := JsUndefined;
       ErrorObject.message := JsUndefined;
       ErrorObject.statusCode := JsNumber 403;
       ErrorObject.statusText := JsString "Forbidden";
       ErrorObject.json := "{}" |}.

Definition listing (paths : list PathEntry.t)
    (workspaceId path : string) (recursive shortcuts : bool)
    : Result PathMetadata.t :=
  if String.eqb path "lhB/Files"
  then Ok {| PathMetadata.paths := Some paths |}
  else Throw forbidden.

Definition client : FabricPlatformAPIClient :=
  {| getAllWorkspaces := Ok [ {| Workspace.id := "ws1" |} ];
     getAllItems := fun _ => Ok [lhA; notebook; lhB];
     getPathMetadata := listing [folder; doc] |}.

(** The same workspace with the listing of [lhB] repeating an entry. *)
Definition repeating : FabricPlatformAPIClient :=
  {| getAllWorkspaces := Ok [ {| Workspace.id := "ws1" |} ];
     getAllItems := fun _ => Ok [lhA; notebook; lhB];
     getPathMetadata := listing [doc; doc] |}.

(** No accessible workspace. *)
Definition stranded : FabricPlatformAPIClient :=
  {| getAllWorkspaces := Ok [];
     getAllItems := fun _ => Ok [lhA; notebook; lhB];
     getPathMetadata := listing [folder; doc] |}.

(** The item listing itself is refused. *)
Definition refused : FabricPlatformAPIClient :=
  {| getAllWorkspaces := Ok [ {| Workspace.id := "ws1" |} ];
     getAllItems := fun _ => Throw forbidden;
     getPathMetadata := listing [folder; doc] |}.

(** The item cannot be resolved to a workspace. *)
Definition workloadClient : WorkloadClientAPI :=
  {| getItem := fun _ => Throw (ThrowString "item not found") |}.

End Sample.

(* ===================================================================== *)
(** ** Token claims: [decodeJwtClaims], [extractEmailFromToken]           *)
(* ===================================================================== *)

Module JsText.

(** [s.replace(/c/g, d)] for single characters [c] and [d]. *)
Fixpoint replaceChar (c d : ascii) (s : string) : string :=
  match s with
  | EmptyString => EmptyString
  | String x s' =>
      String (if Ascii.eqb x c then d else x) (replaceChar c d s')
  end.

(** The number of occurrences of [c] in [s]. *)
Fixpoint countChar (c : ascii) (s : string) : nat :=
  match s with
  | EmptyString => 0
  | String x s' => (if Ascii.eqb x c then 1 else 0) + countChar c s'
  end.

End JsText.

(** What [JSON.parse] returns: [null], an object with its fields, or any
    other value (a primitive, or an array as [JsOpaque]). *)
Inductive Json :=
| JsonNull
| JsonObject (fields : gmap string JsValue)
| JsonOther (v : JsValue).

Module JsonVal.

(** Truthiness of a parsed value. *)
Definition truthy (j : Json) : bool :=
  match j with
  | JsonNull => false
  | JsonObject _ => true
  | JsonOther v => JsVal.truthy v
  end.

(** [claims.key]: [undefined] when the field is missing or the value is
    not an object. *)
Definition get (j : Json) (key : string) : JsValue :=
  match j with
  | JsonObject fields => default JsUndefined (fields !! key)
  | _ => JsUndefined
  end.

(** [a || b] on values. *)
Definition orElse (a b : JsValue) : JsValue :=
  if JsVal.truthy a then a else b.

End JsonVal.

Section Jwt.

(** The runtime's [atob] and [JSON.parse]; either may throw. *)
Variable atob : string -> Result string.
Variable JSON_parse : string -> Result Json.

(** [payload.replace(/-/g, '+').replace(/_/g, '/')]. *)
Definition base64FromUrl (payload : string) : string :=
  JsText.replaceChar "_" "/" (JsText.replaceChar "-" "+" payload).

(** The result is the parsed payload, [null] when the token does not have
    three parts or when decoding or parsing throws (logged as a
    warning). *)
Definition decodeJwtClaims (token : string) : list Effect * Json :=
  match Js.split "." token with
  | [_; payload; _] =>
      match atob (base64FromUrl payload) with
      | Ok decoded =>
          match JSON_parse decoded with
          | Ok claims => ([], claims)
          | Throw error => ([ConsoleWarn "Failed to decode JWT:" error], JsonNull)
          end
      | Throw error => ([ConsoleWarn "Failed to decode JWT:" error], JsonNull)
      end
  | _ => ([], JsonNull)
  end.

(** [claims.email || claims.upn || claims.unique_name ||
    claims.preferred_username]. *)
Definition emailClaim (claims : Json) : JsValue :=
  JsonVal.orElse
    (JsonVal.orElse
       (JsonVal.orElse (JsonVal.get claims "email") (JsonVal.get claims "upn"))
       (JsonVal.get claims "unique_name"))
    (JsonVal.get claims "preferred_username").

(** [None] is [undefined]. *)
Definition extractEmailFromToken (token : string)
    : list Effect * option string :=
  let r := decodeJwtClaims token in
  if negb (JsonVal.truthy r.2) then (r.1, None)
  else
    (r.1,
     match emailClaim r.2 with
     | JsString email => Some email
     | _ => None
     end).

End Jwt.

(* ===================================================================== *)
(** ** The catalog page: icons, rows, preview panels                      *)
(* ===================================================================== *)

Module Page.

(** The three looks [renderFileIcon] chooses between: the icon and its
    colour pair. *)
Inductive FileIcon :=
| DocumentRegular_neutral
| DocumentPdfRegular_red
| ImageRegular_purple.

Definition renderFileIcon (file : OneLakeFile.t) : FileIcon :=
  let ext := getFileExtension (OneLakeFile.name file) in
  if String.eqb ext "pdf" then DocumentPdfRegular_red
  else if isImage (OneLakeFile.name file) then ImageRegular_purple
  else DocumentRegular_neutral.

(** What [renderFileList] shows. A row is a file and whether it is drawn
    as selected. *)
Inductive FileList :=
| ListSpinner
| EmptyState
| Rows (rows : list (OneLakeFile.t * bool)).

(** [catalog.selectedFile?.file.fullPath === file.fullPath]. *)
Definition isSelected (selectedFile : option FilePreview.t)
    (file : OneLakeFile.t) : bool :=
  match selectedFile with
  | Some preview =>
      String.eqb (OneLakeFile.fullPath (FilePreview.file preview))
                 (OneLakeFile.fullPath file)
  | None => false
  end.

(** [catalog.files] is the filtered list the hook returns. *)
Definition renderFileList (st : State.t) : FileList :=
  if State.loading st then ListSpinner
  else if (length (filteredFiles st) =? 0)%nat
          && negb (Js.truthyOpt (State.error st))
  then EmptyState
  else Rows (List.map (fun file => (file, isSelected (State.selectedFile st) file))
                      (filteredFiles st)).

(** The blocks of the preview content area. *)
Inductive Panel :=
| LoadingSpinner
| ErrorText (error : string)
| ImageView (src alt : string)
| PdfCard (name : string)
| DownloadCard (name : string).

(** The content area of [renderPreview]: each block is rendered when its
    guard holds. *)
Definition renderPreviewContent (preview : FilePreview.t) : list Panel :=
  let name := OneLakeFile.name (FilePreview.file preview) in
  (if FilePreview.loading preview then [LoadingSpinner] else [])
  ++ (match FilePreview.error preview with
      | Some error => if Js.truthy error then [ErrorText error] else []
      | None => []
      end)
  ++ (if negb (FilePreview.loading preview)
         && negb (Js.truthyOpt (FilePreview.error preview))
      then
        match FilePreview.blobUrl preview with
        | Some blobUrl =>
            if Js.truthy blobUrl then
              (if isImage name then [ImageView blobUrl name] else [])
              ++ (if isPdf name then [PdfCard name] else [])
              ++ (if negb (isPreviewable name) then [DownloadCard name] else [])
            else []
        | None => []
        end
      else []).

End Page.

(* ===================================================================== *)
(** ** The embedded application: [IntuigenceAppEditor]                    *)
(* ===================================================================== *)

Module IntuigenceMessageType.
Definition FABRIC_CONTEXT : string := "FABRIC_CONTEXT".
Definition FABRIC_THEME : string := "FABRIC_THEME".
Definition APP_READY : string := "APP_READY".
Definition APP_ERROR : string := "APP_ERROR".
Definition NAVIGATION_REQUEST : string := "NAVIGATION_REQUEST".
Definition NOTIFICATION_REQUEST : string := "NOTIFICATION_REQUEST".
End IntuigenceMessageType.

Module FabricContext.
Record t := {
  workspaceId : string;
  workspaceName : option string;
  itemId : string;
  itemName : option string;
  userId : option string;
  userEmail : option string;
  tenantId : option string;
  theme : option string
}.
End FabricContext.

(** [itemCrud.getItem] as the editor reads it: the workspace id and the
    display name of the item. *)
Module ItemDetails.
Record item := { workspaceId : option string; displayName : option string }.
Record t := { details : option item }.
End ItemDetails.

(** [URL]: everything but the query, and the query as the ordered list
    [searchParams] iterates over. *)
Module Url.

Record t := { base : string; searchParams : list (string * string) }.

(** [searchParams.set(name, value)]: the first pair named [name] takes
    the value and the other pairs of that name are deleted; without such
    a pair, one is appended. *)
Fixpoint set (name value : string) (params : list (string * string))
    : list (string * string) :=
  match params with
  | [] => [(name, value)]
  | (k, v) :: rest =>
      if String.eqb k name
      then (name, value)
             :: List.filter (fun kv => negb (String.eqb kv.1 name)) rest
      else (k, v) :: set name value rest
  end.

(** [searchParams.getAll(name)]. *)
Definition getAll (name : string) (params : list (string * string))
    : list string :=
  List.map snd (List.filter (fun kv => String.eqb kv.1 name) params).

Definition setParam (name value : string) (url : t) : t :=
  {| base := base url; searchParams := set name value (searchParams url) |}.

End Url.

Module Editor.

(** The four [useState] cells. [error] holds whatever [setError] was
    given. *)
Record State := {
  isLoading : bool;
  error : JsValue;
  fabricContext : option FabricContext.t;
  appReady : bool
}.

Definition initial : State :=
  {| isLoading := true; error := JsNull; fabricContext := None;
     appReady := false |}.

Record Payload := { message : JsValue }.

Record MessageData := { type : JsValue; payload : option Payload }.

(** [data] is [None] when [event.data] is falsy or carries no fields. *)
Record MessageEvent := { origin : string; data : option MessageData }.

Inductive Effect :=
| ConsoleLog (msg : string)
| ConsoleLogContext (msg : string) (context : FabricContext.t)
| ConsoleLogPayload (msg : string) (payload : option Payload)
| ConsoleWarn (msg : string) (e : Thrown)
| ConsoleErrorPayload (msg : string) (payload : option Payload)
| PostMessage (type : string) (payload : FabricContext.t)
              (targetOrigin : string).

Inductive View :=
| LoadingView
| ErrorView (error : JsValue)
| AppView (overlay : bool) (src : Url.t).

Section WithConfig.

(** [IntuigenceAppConfig.baseUrl] and [IntuigenceAppConfig.embedMode]. *)
Variable baseUrl : string.
Variable embedMode : string.

(** [new URL(baseUrl)]. *)
Variable parseUrl : string -> Url.t.

(** [t(key, fallback)] of the translation hook. *)
Variable t : string -> string -> string.

(** [loadFabricContext], up to [setFabricContext]: the context and what
    is logged on the way.  The inner [catch] takes what [getItem] throws,
    and nothing else in the outer [try] throws. *)
Definition loadFabricContext
    (getItem : string -> Result (option ItemDetails.t))
    (itemObjectId : option string) : list Effect * FabricContext.t :=
  let context0 :=
    {| FabricContext.workspaceId := "";
       FabricContext.workspaceName := None;
       FabricContext.itemId := Js.orElseOpt itemObjectId "";
       FabricContext.itemName := None;
       FabricContext.userId := None;
       FabricContext.userEmail := None;
       FabricContext.tenantId := None;
       FabricContext.theme := None |} in
  let skip := ConsoleLog "Skipping token acquisition - app will handle its own auth" in
  let r :=
    match itemObjectId with
    | Some itemId =>
        if Js.truthy itemId then
          match getItem itemId with
          | Ok itemResult =>
              match itemResult ≫= ItemDetails.details with
              | Some item =>
                  ([],
                   {| FabricContext.workspaceId :=
                        Js.orElseOpt (ItemDetails.workspaceId item) "";
                      FabricContext.workspaceName := None;
                      FabricContext.itemId := FabricContext.itemId context0;
                      FabricContext.itemName := ItemDetails.displayName item;
                      FabricContext.userId := None;
                      FabricContext.userEmail := None;
                      FabricContext.tenantId := None;
                      FabricContext.theme := None |})
              | None => ([], context0)
              end
          | Throw e => ([ConsoleWarn "Could not load item info:" e], context0)
          end
        else ([], context0)
    | None => ([], context0)
    end in
  (skip :: r.1 ++ [ConsoleLogContext "Fabric context loaded:" r.2], r.2).

(** [setFabricContext(context); setIsLoading(false)]. *)
Definition contextLoaded (context : FabricContext.t) (st : State) : State :=
  {| isLoading := false; error := error st;
     fabricContext := Some context; appReady := appReady st |}.

Definition allowedOrigins : list string :=
  ["intuigence.ai"; "localhost"; "127.0.0.1"].

(** [allowedOrigins.some(origin => event.origin.includes(origin))]. *)
Definition isAllowedOrigin (origin : string) : bool :=
  existsb (fun allowed => Js.includes origin allowed) allowedOrigins.

(** [payload?.message || "Application error"]. *)
Definition errorOfPayload (payload : option Payload) : JsValue :=
  JsonVal.orElse
    (match payload with Some p => message p | None => JsUndefined end)
    (JsString "Application error").

(** [handleMessage]. [contentWindow] tells whether
    [iframeRef.current?.contentWindow] is there. *)
Definition handleMessage (contentWindow : bool) (event : MessageEvent)
    (st : State) : list Effect * State :=
  if negb (isAllowedOrigin (origin event)) then ([], st)
  else
    let type := match data event with Some d => type d | None => JsUndefined end in
    let payload := data event ≫= payload in
    match type with
    | JsString ty =>
        if String.eqb ty IntuigenceMessageType.APP_READY then
          (ConsoleLog "IntuigenceAI app is ready"
             :: match fabricContext st with
                | Some context =>
                    if contentWindow
                    then [PostMessage IntuigenceMessageType.FABRIC_CONTEXT
                                      context baseUrl]
                    else []
                | None => []
                end,
           {| isLoading := isLoading st; error := error st;
              fabricContext := fabricContext st; appReady := true |})
        else if String.eqb ty IntuigenceMessageType.APP_ERROR then
          ([ConsoleErrorPayload "IntuigenceAI app error:" payload],
           {| isLoading := isLoading st; error := errorOfPayload payload;
              fabricContext := fabricContext st; appReady := appReady st |})
        else if String.eqb ty IntuigenceMessageType.NAVIGATION_REQUEST then
          ([ConsoleLogPayload "Navigation request:" payload], st)
        else if String.eqb ty IntuigenceMessageType.NOTIFICATION_REQUEST then
          ([ConsoleLogPayload "Notification request:" payload], st)
        else ([], st)
    | _ => ([], st)
    end.

Definition handleIframeLoad (st : State) : list Effect * State :=
  ([ConsoleLog "IntuigenceAI iframe loaded"],
   {| isLoading := isLoading st; error := error st;
      fabricContext := fabricContext st; appReady := true |}).

Definition handleIframeError (st : State) : list Effect * State :=
  ([],
   {| isLoading := isLoading st;
      error :=
        JsString (t "IntuigenceApp_Error_Load"
                    "Failed to load IntuigenceAI application");
      fabricContext := fabricContext st; appReady := appReady st |}).

(** [if (x) url.searchParams.set(name, x)] for an optional field. *)
Definition setIfTruthy (name : string) (value : option string) (url : Url.t)
    : Url.t :=
  match value with
  | Some v => if Js.truthy v then Url.setParam name v url else url
  | None => url
  end.

(** [buildIframeUrl], before [url.toString()]. *)
Definition buildIframeUrl (fabricContext : option FabricContext.t) : Url.t :=
  let url := Url.setParam "embed" embedMode (parseUrl baseUrl) in
  let url := setIfTruthy "loginHint" (fabricContext ≫= FabricContext.userEmail) url in
  let url := setIfTruthy "workspaceId" (FabricContext.workspaceId <$> fabricContext) url in
  let url := setIfTruthy "itemId" (FabricContext.itemId <$> fabricContext) url in
  setIfTruthy "itemName" (fabricContext ≫= FabricContext.itemName) url.

(** What the component returns. *)
Definition render (st : State) : View :=
  if isLoading st then LoadingView
  else if JsVal.truthy (error st) then ErrorView (error st)
  else AppView (negb (appReady st)) (buildIframeUrl (fabricContext st)).

(** What happens to a mounted editor. *)
Inductive Event :=
| ContextLoaded (getItem : string -> Result (option ItemDetails.t))
                (itemObjectId : option string)
| Message (contentWindow : bool) (event : MessageEvent)
| IframeLoad
| IframeError.

Definition step (st : State) (ev : Event) : State :=
  match ev with
  | ContextLoaded getItem itemObjectId =>
      contextLoaded (loadFabricContext getItem itemObjectId).2 st
  | Message contentWindow event => (handleMessage contentWindow event st).2
  | IframeLoad => (handleIframeLoad st).2
  | IframeError => (handleIframeError st).2
  end.

Definition run (st : State) (evs : list Event) : State :=
  fold_left step evs st.

End WithConfig.

End Editor.

(** The three shapes of a preview: loading, ready with a blob URL, failed
    with the message of [selectFile]'s [catch]. *)
Definition PreviewShape (p : FilePreview.t) : Prop :=
  (FilePreview.blobUrl p = None /\ FilePreview.loading p = true /\
   FilePreview.error p = None) \/
  (exists url,
      FilePreview.blobUrl p = Some url /\ FilePreview.loading p = false /\
      FilePreview.error p = None) \/
  (exists detail,
      FilePreview.blobUrl p = None /\ FilePreview.loading p = false /\
      FilePreview.error p = Some ("Failed to load file: " +:+ detail)).

(** The commands of the preview: selecting, closing, downloading. *)
Definition isPreviewEvent (ev : Hook.Event) : bool :=
  match ev with
  | Hook.SelectFileCalled _ | Hook.SelectFileSettled _ _
  | Hook.ClosePreview | Hook.DownloadFile => true
  | _ => false
  end.

(** A build settlement that leaves an error behind: every ending of a
    build but a listing. *)
Definition setsError (ev : Hook.Event) : bool :=
  match ev with
  | Hook.LoadFilesSettled _ (Listed _ _) => false
  | Hook.LoadFilesSettled _ _ => true
  | _ => false
  end.

(** A build is called on [h] and settles as [s], logging [log], after the
    events [between] were handled while it awaited; it ends with a null
    top-level [error]. *)
Definition BuildEndsWithNullError (h : Hook.t) (between : list Hook.Event)
    (log : list Effect) (s : Settled) : Prop :=
  State.error
    (Hook.state
       (Hook.run h (Hook.LoadFilesCalled
                      :: between ++ [Hook.LoadFilesSettled log s])))
  = None.

(** Partial-failure tolerance as the specification words it: every build
    in which the listing of one Lakehouse fails and that of another
    succeeds ends with a null top-level [error], whatever is handled
    while it awaits. *)
Definition PartialFailureEndsWithNullError : Prop :=
  forall (getPath : string -> string -> string -> string)
         (parseNumber : string -> option Z)
         (workloadClient : WorkloadClientAPI)
         (client : FabricPlatformAPIClient)
         (itemObjectId : option string)
         (h : Hook.t) (between : list Hook.Event)
         (ws : string) (allItems : list Item.t) (a b : Item.t)
         (e : Thrown) (metadata : PathMetadata.t),
    is_Some (Hook.clientRef h) ->
    (resolveWorkspace workloadClient client itemObjectId).2 = Ok (Some ws) ->
    Js.truthy ws = true ->
    getAllItems client ws = Ok allItems ->
    a ∈ List.filter isLakehouse allItems ->
    b ∈ List.filter isLakehouse allItems ->
    getPathMetadata client ws (Item.id a +:+ "/Files") true false = Throw e ->
    getPathMetadata client ws (Item.id b +:+ "/Files") true false
    = Ok metadata ->
    BuildEndsWithNullError
      h between
      (loadFilesRun getPath parseNumber workloadClient client itemObjectId).1
      (loadFilesRun getPath parseNumber workloadClient client itemObjectId).2.

(** The value of [a || b || ... || z]: the first truthy operand, the last
    operand when none is truthy. *)
Fixpoint firstTruthyOrLast (operands : list JsValue) : JsValue :=
  match operands with
  | [] => JsUndefined
  | [v] => v
  | v :: rest => if JsVal.truthy v then v else firstTruthyOrLast rest
  end.

(** More of the sample workspace. *)
Module Sample2.

(** A workspace with a notebook only. *)
Definition bare : FabricPlatformAPIClient :=
  {| getAllWorkspaces := Ok [ {| Workspace.id := "ws1" |} ];
     getAllItems := fun _ => Ok [Sample.notebook];
     getPathMetadata := Sample.listing [] |}.

(** The workspace list is refused; everything else is as in
    [Sample.client]. *)
Definition listless : FabricPlatformAPIClient :=
  {| getAllWorkspaces := Throw Sample.forbidden;
     getAllItems := fun _ => Ok [Sample.lhA; Sample.notebook; Sample.lhB];
     getPathMetadata := Sample.listing [Sample.folder; Sample.doc] |}.

(** The item resolves to workspace [ws7]. *)
Definition resolving : WorkloadClientAPI :=
  {| getItem := fun _ =>
       Ok (Some {| GetItemResult.item :=
                     Some {| GetItemResult.workspaceId := Some "ws7" |} |}) |}.

(** A runtime whose [atob] is the identity and whose [JSON.parse] yields
    the same claims for every text: a numeric [email], a string [upn]. *)
Definition atob (s : string) : Result string := Ok s.

Definition claims : gmap string JsValue :=
  list_to_map [("email", JsNumber 7); ("upn", JsString "ada@example.org")].

Definition parse (s : string) : Result Json := Ok (JsonObject claims).

(** Claims of a token with an empty [email], no [upn], and an address in
    both [unique_name] and [preferred_username]. *)
Definition uniqueClaims : gmap string JsValue :=
  list_to_map [("email", JsString EmptyString);
               ("unique_name", JsString "grace@example.org");
               ("preferred_username", JsString "hopper@example.org")].

Definition parseUnique (s : string) : Result Json :=
  Ok (JsonObject uniqueClaims).

(** Both Lakehouses are listed: two files in [lhA], a folder and two
    files in [lhB]; [sub/doc.pdf] exists in both. *)
Definition entry (name : string) : PathEntry.t :=
  {| PathEntry.name := name;
     PathEntry.isDirectory := JsUndefined;
     PathEntry.contentLength := JsString "2048";
     PathEntry.lastModified := None |}.



(** The editor's configuration and surroundings: the default base URL
    with a query of its own, a translation that falls back to the given
    text. *)
Definition baseUrl : string := "http://localhost:3000".

Definition embedMode : string := "fabric".

Definition parseUrl (s : string) : Url.t :=
  {| Url.base := s; Url.searchParams := [("embed", "none"); ("lang", "en")] |}.

Definition t (key fallback : string) : string := fallback.

Definition context : FabricContext.t :=
  {| FabricContext.workspaceId := "ws7";
     FabricContext.workspaceName := None;
     FabricContext.itemId := "item-1";
     FabricContext.itemName := Some "Plant A";
     FabricContext.userId := None;
     FabricContext.userEmail := None;
     FabricContext.tenantId := None;
     FabricContext.theme := None |}.

Definition loaded : Editor.State :=
  {| Editor.isLoading := false; Editor.error := JsNull;
     Editor.fabricContext := Some context; Editor.appReady := false |}.

Definition message (type : string) : Editor.MessageEvent :=
  {| Editor.origin := "http://localhost:3000";
     Editor.data :=
       Some {| Editor.type := JsString type; Editor.payload := None |} |}.

(** An authentication failure of the workload client. *)
Definition interactionRequired : ErrorObject.t :=
  {| ErrorObject.instanceOfError := false;
     ErrorObject.error := JsNumber 1;
     ErrorObject.message := JsString "interaction_required";
     ErrorObject.statusCode := JsNumber 401;
     ErrorObject.statusText := JsUndefined;
     ErrorObject.json := "{}" |}.

Definition fileX : OneLakeFile.t :=
  {| OneLakeFile.fullPath := "ws1/lhB/Files/x.png";
     OneLakeFile.name := "x.png";
     OneLakeFile.relativePath := "x.png";
     OneLakeFile.size := 10;
     OneLakeFile.lastModified := "";
     OneLakeFile.lakehouseName := "Beta";
     OneLakeFile.lakehouseId := "lhB" |}.

Definition fileY : OneLakeFile.t :=
  {| OneLakeFile.fullPath := "ws1/lhB/Files/y.pdf";
     OneLakeFile.name := "y.pdf";
     OneLakeFile.relativePath := "y.pdf";
     OneLakeFile.size := 20;
     OneLakeFile.lastModified := "";
     OneLakeFile.lakehouseName := "Beta";
     OneLakeFile.lakehouseId := "lhB" |}.

End Sample2.

(* ===================================================================== *)
(** ** Strings                                                            *)
(* ===================================================================== *)

Section StringFacts.

Lemma append_String c s t : String c s +:+ t = String c (s +:+ t).
Proof. reflexivity. Qed.

Lemma append_empty_l s : "" +:+ s = s.
Proof. reflexivity. Qed.

Lemma append_empty_r s : s +:+ "" = s.
Proof.
  induction s as [|c s IH]; [reflexivity|].
  by rewrite append_String, IH.
Qed.

Lemma append_assoc (s t u : string) : (s +:+ t) +:+ u = s +:+ (t +:+ u).
Proof.
  induction s as [|c s IH]; [reflexivity|].
  by rewrite !append_String, IH.
Qed.

Lemma split_nonempty sep s : Js.split sep s <> [].
Proof.
  destruct s as [|c s]; simpl; [discriminate|].
  destruct (Ascii.eqb c sep); [discriminate|].
  destruct (Js.split sep s); discriminate.
Qed.

(** Without a separator there is one segment. *)
Lemma split_no_sep sep t : hasChar sep t = false -> Js.split sep t = [t].
Proof.
  induction t as [|d t IH]; simpl; [done|].
  intros [H1 H2]%orb_false_iff. by rewrite H1, (IH H2).
Qed.

(** Splitting distributes over a separator. *)
Lemma split_app_sep sep pre t :
  Js.split sep (pre +:+ String sep t) = Js.split sep pre ++ Js.split sep t.
Proof.
  induction pre as [|d pre IH].
  - rewrite append_empty_l. simpl. by rewrite Ascii.eqb_refl.
  - rewrite append_String. simpl. rewrite IH.
    destruct (Ascii.eqb d sep); [done|].
    pose proof (split_nonempty sep pre).
    by destruct (Js.split sep pre).
Qed.

(** [pop] of [split] is the final segment. *)
Lemma LastSegment_pop sep s seg :
  LastSegment sep s seg -> Js.pop (Js.split sep s) = Some seg.
Proof.
  intros [Hnone [->|[pre ->]]]; unfold Js.pop.
  - by rewrite split_no_sep.
  - rewrite split_app_sep, (split_no_sep _ _ Hnone). apply last_snoc.
Qed.

(** Every string has a final segment. *)
Lemma LastSegment_exists sep s : exists seg, LastSegment sep s seg.
Proof.
  induction s as [|c s (seg & Hnone & Hshape)].
  - exists "". split; [done|by left].
  - destruct (Ascii.eqb_spec c sep) as [->|Hne].
    + exists seg. split; [done|]. right.
      destruct Hshape as [->|[pre ->]]; [by exists ""|].
      by exists (String sep pre).
    + destruct Hshape as [->|[pre ->]].
      * exists (String c seg). split; [|by left].
        simpl. rewrite Hnone. by destruct (Ascii.eqb_spec c sep).
      * exists seg. split; [done|]. right. by exists (String c pre).
Qed.

Lemma LastSegment_unique sep s seg1 seg2 :
  LastSegment sep s seg1 -> LastSegment sep s seg2 -> seg1 = seg2.
Proof.
  intros H1%LastSegment_pop H2%LastSegment_pop. congruence.
Qed.

(** [startsWith] and [substring] undo a concatenation. *)
Lemma startsWith_app p s : Js.startsWith (p +:+ s) p = true.
Proof.
  unfold Js.startsWith. induction p as [|c p IH].
  - by destruct s.
  - rewrite append_String. simpl.
    destruct (ascii_dec c c); [exact IH|done].
Qed.

Lemma startsWith_inv s p :
  Js.startsWith s p = true -> s = p +:+ Js.substring (String.length p) s.
Proof.
  unfold Js.startsWith. revert s. induction p as [|c p IH]; intros s H.
  - reflexivity.
  - destruct s as [|d s]; simpl in H; [done|].
    destruct (ascii_dec c d) as [->|]; [|done].
    rewrite append_String. simpl. by rewrite <- (IH s H).
Qed.

Lemma substring_app p s : Js.substring (String.length p) (p +:+ s) = s.
Proof.
  induction p as [|c p IH]; [by destruct s|].
  rewrite append_String. exact IH.
Qed.

Lemma includes_nil q : Js.includes "" q = Js.startsWith "" q.
Proof. unfold Js.includes. apply orb_false_r. Qed.

Lemma includes_String c s q :
  Js.includes (String c s) q
  = Js.startsWith (String c s) q || Js.includes s q.
Proof. reflexivity. Qed.

(** [includes] is substring search. *)
Lemma includes_Substring s q : Js.includes s q = true <-> Substring q s.
Proof.
  split.
  - induction s as [|c s IH].
    + rewrite includes_nil. intros H%startsWith_inv.
      exists "", (Js.substring (String.length q) ""). exact H.
    + rewrite includes_String.
      intros [H%startsWith_inv|H]%orb_true_iff.
      * exists "", (Js.substring (String.length q) (String c s)). exact H.
      * destruct (IH H) as (pre & post & ->).
        by exists (String c pre), post.
  - intros (pre & post & ->).
    induction pre as [|c pre IH].
    + rewrite append_empty_l.
      destruct (q +:+ post) as [|d r] eqn:E.
      * rewrite includes_nil, <- E. apply startsWith_app.
      * rewrite includes_String, <- E, startsWith_app. reflexivity.
    + rewrite append_String, includes_String, IH. apply orb_true_r.
Qed.

End StringFacts.

Example split_keeps_empty_segments :
  Js.split "/" "a//b/" = ["a"; ""; "b"; ""].
Proof. reflexivity. Qed.

Example getFileExtension_cases :
  getFileExtension "report.final.PDF" = "pdf" /\
  getFileExtension "README" = "readme" /\
  getFileExtension "archive." = "" /\
  getFileExtension ".gitignore" = "gitignore".
Proof. by repeat split. Qed.

Example fileNameOf_cases :
  fileNameOf "sub/doc.pdf" = "doc.pdf" /\
  fileNameOf "doc.pdf" = "doc.pdf" /\
  fileNameOf "sub/" = "sub/".
Proof. by repeat split. Qed.

Example getErrorMessage_cases :
  getErrorMessage ThrowNullish = "Unknown error" /\
  getErrorMessage (ThrowString "offline") = "offline" /\
  getErrorMessage Sample.forbidden = "HTTP 403: Forbidden".
Proof. by repeat split. Qed.

Lemma matchesQuery_Matches query f :
  matchesQuery query f = true <-> Matches query f.
Proof.
  unfold matchesQuery, Matches.
  by rewrite orb_true_iff, !includes_Substring.
Qed.

Lemma filter_SubsequenceWhere {A} (P : A -> Prop) (p : A -> bool) l :
  (forall x, p x = true <-> P x) ->
  SubsequenceWhere P l (List.filter p l).
Proof.
  intros Hp. induction l as [|x l IH]; simpl; [constructor|].
  destruct (p x) eqn:E.
  - apply subseq_keep; [by apply Hp|done].
  - apply subseq_drop; [|done]. rewrite <- Hp. congruence.
Qed.

Lemma SubsequenceWhere_functional {A} (P : A -> Prop) l l1 l2 :
  SubsequenceWhere P l l1 -> SubsequenceWhere P l l2 -> l1 = l2.
Proof.
  intros H1. revert l2.
  induction H1; intros l2 H2; inversion H2; subst;
    try done; f_equal; auto.
Qed.

Lemma orElse_empty s : Js.orElse s "" = s.
Proof. by destruct s. Qed.

(* ===================================================================== *)
(** ** File-extension predicates                                          *)
(* ===================================================================== *)

Lemma PREVIEWABLE_is_IMAGE_plus_pdf :
  PREVIEWABLE_EXTENSIONS = IMAGE_EXTENSIONS ∪ {["pdf"]}.
Proof. unfold PREVIEWABLE_EXTENSIONS, IMAGE_EXTENSIONS. set_solver. Qed.

Lemma getFileExtension_LastSegment n seg :
  LastSegment "." n seg -> getFileExtension n = Js.toLowerCase seg.
Proof.
  intros H. unfold getFileExtension.
  rewrite (LastSegment_pop _ _ _ H). simpl. by rewrite orElse_empty.
Qed.

Lemma hasChar_false_LastSegment sep n :
  hasChar sep n = false -> LastSegment sep n n.
Proof. intros H. split; [done|by left]. Qed.

(** C10.  A name is previewable exactly when it is an image or a PDF: the
    previewable extensions are the image extensions plus ["pdf"].  The
    three predicates are functions of the lowercased final
    ["."]-separated segment of the name, which is the whole lowercased
    name when the name has no ["."]. *)
Theorem isPreviewable_iff_isImage_or_isPdf (n : string) :
  isPreviewable n = isImage n || isPdf n /\
  PREVIEWABLE_EXTENSIONS = IMAGE_EXTENSIONS ∪ {["pdf"]} /\
  (exists seg,
      LastSegment "." n seg /\
      getFileExtension n = Js.toLowerCase seg /\
      isPreviewable n
      = bool_decide (Js.toLowerCase seg ∈ PREVIEWABLE_EXTENSIONS) /\
      isImage n = bool_decide (Js.toLowerCase seg ∈ IMAGE_EXTENSIONS) /\
      isPdf n = bool_decide (Js.toLowerCase seg = "pdf")) /\
  (if hasChar "." n then True else getFileExtension n = Js.toLowerCase n).
Proof.
  split; [|split; [exact PREVIEWABLE_is_IMAGE_plus_pdf|split]].
  - unfold isPreviewable, isImage, isPdf.
    rewrite PREVIEWABLE_is_IMAGE_plus_pdf.
    apply eq_true_iff_eq.
    rewrite orb_true_iff, !bool_decide_eq_true. set_solver.
  - destruct (LastSegment_exists "." n) as [seg Hseg].
    exists seg. unfold isPreviewable, isImage, isPdf.
    by rewrite (getFileExtension_LastSegment _ _ Hseg).
  - destruct (hasChar "." n) eqn:E; [done|].
    by apply getFileExtension_LastSegment, hasChar_false_LastSegment.
Qed.

(* ===================================================================== *)
(** ** Search filter                                                      *)
(* ===================================================================== *)

(** C9.  With an empty query the visible files are [files] itself, so
    clearing the query after any query restores them; with a non-empty
    query they are the subsequence of [files] whose name or container
    name, lowercased, contains the lowercased query.  Setting the query
    changes neither [files] nor the preview. *)
Theorem filteredFiles_semantics (st : State.t) (q : string) :
  filteredFiles (setSearchQuery "" (setSearchQuery q st)) = State.files st /\
  match State.searchQuery st with
  | "" => filteredFiles st = State.files st
  | String _ _ =>
      SubsequenceWhere (Matches (State.searchQuery st))
                       (State.files st) (filteredFiles st)
  end /\
  State.files (setSearchQuery q st) = State.files st /\
  State.selectedFile (setSearchQuery q st) = State.selectedFile st.
Proof.
  split; [reflexivity|]. split; [|by repeat split].
  unfold filteredFiles. destruct (State.searchQuery st) as [|c q'] eqn:E.
  - reflexivity.
  - simpl. apply filter_SubsequenceWhere, matchesQuery_Matches.
Qed.

(* ===================================================================== *)
(** ** Flattening                                                         *)
(* ===================================================================== *)

Lemma relativePathOf_prefixed containerId rest :
  relativePathOf containerId (containerId +:+ "/Files/" +:+ rest) = rest.
Proof.
  unfold relativePathOf.
  rewrite <- append_assoc, startsWith_app. apply substring_app.
Qed.

Lemma relativePathOf_cases containerId entryName :
  if Js.startsWith entryName (containerId +:+ "/Files/")
  then entryName
       = (containerId +:+ "/Files/") +:+ relativePathOf containerId entryName
  else relativePathOf containerId entryName = entryName.
Proof.
  unfold relativePathOf.
  destruct (Js.startsWith _ _) eqn:E; [|done]. by apply startsWith_inv.
Qed.

Lemma fileNameOf_LastSegment relativePath seg :
  LastSegment "/" relativePath seg ->
  fileNameOf relativePath = if Js.truthy seg then seg else relativePath.
Proof.
  intros H. unfold fileNameOf. by rewrite (LastSegment_pop _ _ _ H).
Qed.

(** C5, as stated, fails: a listing entry that is not flagged as a
    directory and whose name ends in the separator has an empty final
    segment, and the code then takes the whole relative path as name. *)
Lemma NameIsFinalSegment_trailing_slash_counterexample :
  ~ NameIsFinalSegment "lh" "lh/Files/sub/".
Proof.
  intros H. specialize (H "").
  assert (Hseg : LastSegment "/" (relativePathOf "lh" "lh/Files/sub/") "").
  { split; [reflexivity|]. right. by exists "sub". }
  specialize (H Hseg). vm_compute in H. discriminate.
Qed.

(** C5, amended.  For an entry named ["{containerId}/Files/sub/doc.pdf"]
    the record has [relativePath = "sub/doc.pdf"] and [name = "doc.pdf"].
    In general [relativePath] is the entry name without its
    ["{containerId}/Files/"] prefix (the entry name itself when it has no
    such prefix), and [name] is the final ["/"]-separated segment of
    [relativePath] when that segment is not empty, the whole
    [relativePath] otherwise. *)
Theorem toFile_flattening
    (getPath : string -> string -> string -> string)
    (parseNumber : string -> option Z)
    (workspaceId : string) (lakehouse : Item.t) (p : PathEntry.t)
    (rest : string) :
  let entry name :=
    {| PathEntry.name := name;
       PathEntry.isDirectory := PathEntry.isDirectory p;
       PathEntry.contentLength := PathEntry.contentLength p;
       PathEntry.lastModified := PathEntry.lastModified p |} in
  let doc :=
    toFile getPath parseNumber workspaceId lakehouse
           (entry (Item.id lakehouse +:+ "/Files/sub/doc.pdf")) in
  let prefixed :=
    toFile getPath parseNumber workspaceId lakehouse
           (entry (Item.id lakehouse +:+ "/Files/" +:+ rest)) in
  let f := toFile getPath parseNumber workspaceId lakehouse p in
  (OneLakeFile.relativePath doc = "sub/doc.pdf" /\
   OneLakeFile.name doc = "doc.pdf") /\
  OneLakeFile.relativePath prefixed = rest /\
  (if Js.startsWith (PathEntry.name p) (Item.id lakehouse +:+ "/Files/")
   then PathEntry.name p
        = (Item.id lakehouse +:+ "/Files/") +:+ OneLakeFile.relativePath f
   else OneLakeFile.relativePath f = PathEntry.name p) /\
  (exists seg,
      LastSegment "/" (OneLakeFile.relativePath f) seg /\
      OneLakeFile.name f
      = if Js.truthy seg then seg else OneLakeFile.relativePath f).
Proof.
  simpl. repeat split.
  - apply (relativePathOf_prefixed _ "sub/doc.pdf").
  - by rewrite (relativePathOf_prefixed _ "sub/doc.pdf").
  - apply relativePathOf_prefixed.
  - apply relativePathOf_cases.
  - destruct (LastSegment_exists "/"
                (relativePathOf (Item.id lakehouse) (PathEntry.name p)))
      as [seg Hseg].
    exists seg. split; [done|]. by apply fileNameOf_LastSegment.
Qed.

(* ===================================================================== *)
(** ** Catalog build                                                      *)
(* ===================================================================== *)

Section Build.

Variable getPath : string -> string -> string -> string.
Variable parseNumber : string -> option Z.
Variable workloadClient : WorkloadClientAPI.
Variable client : FabricPlatformAPIClient.
Variable itemObjectId : option string.

(** The inner loop appends the records of the entries it does not skip. *)
Lemma pushPaths_app ws lakehouse paths allFiles :
  pushPaths getPath parseNumber ws lakehouse allFiles paths
  = allFiles ++
    (toFile getPath parseNumber ws lakehouse
       <$> List.filter (fun p => negb (isDirectoryEntry p)) paths).
Proof.
  unfold pushPaths. revert allFiles.
  induction paths as [|p paths IH]; intros allFiles; simpl.
  - by rewrite app_nil_r.
  - destruct (isDirectoryEntry p); simpl; rewrite IH; [done|].
    by rewrite <- app_assoc.
Qed.

Lemma listLakehouse_app ws acc lakehouse :
  listLakehouse getPath parseNumber client ws acc lakehouse
  = (acc.1 ++ warningsOf client ws lakehouse,
     acc.2 ++ filesOf getPath parseNumber client ws lakehouse).
Proof.
  unfold listLakehouse, warningsOf, filesOf, fileEntriesOf, entriesOf.
  destruct (getPathMetadata _ _ _ _ _) as [metadata|e]; simpl.
  - by rewrite pushPaths_app, app_nil_r.
  - by rewrite app_nil_r.
Qed.

(** Step 3 concatenates, in the order of the Lakehouses, the warnings
    and the records each of them contributes. *)
Lemma listLakehouses_bind ws lakehouses :
  listLakehouses getPath parseNumber client ws lakehouses
  = (lakehouses ≫= warningsOf client ws,
     lakehouses ≫= filesOf getPath parseNumber client ws).
Proof.
  unfold listLakehouses.
  assert (H : forall acc,
             fold_left (listLakehouse getPath parseNumber client ws)
                       lakehouses acc
             = (acc.1 ++ (lakehouses ≫= warningsOf client ws),
                acc.2 ++ (lakehouses
                            ≫= filesOf getPath parseNumber client ws))).
  { induction lakehouses as [|l ls IH]; intros [log files]; simpl.
    - by rewrite !app_nil_r.
    - rewrite IH, listLakehouse_app. simpl.
      by rewrite <- !app_assoc. }
  by rewrite H.
Qed.

(** How a build that reaches step 2 ends. *)
Lemma listWorkspace_cases ws :
  listWorkspace getPath parseNumber client ws =
  match getAllItems client ws with
  | Throw e => ([], Failed e)
  | Ok allItems =>
      match List.filter isLakehouse allItems with
      | [] => ([], NoLakehouses ws)
      | lakehouses =>
          (lakehouses ≫= warningsOf client ws,
           Listed ws (lakehouses ≫= filesOf getPath parseNumber client ws))
      end
  end.
Proof.
  unfold listWorkspace.
  destruct (getAllItems client ws) as [allItems|e]; [|done].
  destruct (List.filter isLakehouse allItems) as [|l ls] eqn:E; [done|].
  by rewrite listLakehouses_bind.
Qed.

(** A build with a resolved workspace is the listing of that workspace. *)
Lemma loadFilesTry_resolved ws :
  (resolveWorkspace workloadClient client itemObjectId).2 = Ok (Some ws) ->
  Js.truthy ws = true ->
  loadFilesTry getPath parseNumber workloadClient client itemObjectId
  = ((resolveWorkspace workloadClient client itemObjectId).1
       ++ (listWorkspace getPath parseNumber client ws).1,
     (listWorkspace getPath parseNumber client ws).2).
Proof.
  intros Hws Hne. unfold loadFilesTry. by rewrite Hws, Hne.
Qed.

(** Step 1 only warns. *)
Lemma resolveWorkspace_log e :
  e ∈ (resolveWorkspace workloadClient client itemObjectId).1 ->
  exists err, e = ConsoleWarn "Could not resolve workspace from item:" err.
Proof.
  unfold resolveWorkspace.
  assert (H : e ∈ (workspaceOfItem workloadClient itemObjectId).1 ->
              exists err,
                e = ConsoleWarn "Could not resolve workspace from item:" err).
  { unfold workspaceOfItem.
    destruct itemObjectId as [itemId|]; [|by intros ?%elem_of_nil].
    destruct (Js.truthy itemId); [|by intros ?%elem_of_nil].
    destruct (getItem workloadClient itemId) as [r|err];
      [by intros ?%elem_of_nil|].
    intros ->%list_elem_of_singleton. by exists err. }
  destruct (Js.truthyOpt _); [exact H|].
  destruct (getAllWorkspaces client); exact H.
Qed.

Lemma warningsOf_log ws lakehouses e :
  e ∈ lakehouses ≫= warningsOf client ws ->
  exists lakehouse err,
    lakehouse ∈ lakehouses /\ e = lakehouseWarning lakehouse err.
Proof.
  intros (lakehouse & He & Hin)%list_elem_of_bind.
  unfold warningsOf in He.
  destruct (getPathMetadata _ _ _ _ _) as [m|err];
    [by apply elem_of_nil in He|].
  apply list_elem_of_singleton in He. by exists lakehouse, err.
Qed.

(** A build that reaches step 3: what it logs and what it commits. *)
Lemma loadFiles_listed ws allItems st :
  (resolveWorkspace workloadClient client itemObjectId).2 = Ok (Some ws) ->
  Js.truthy ws = true ->
  getAllItems client ws = Ok allItems ->
  List.filter isLakehouse allItems <> [] ->
  loadFiles getPath parseNumber workloadClient (Some client) itemObjectId st
  = ((resolveWorkspace workloadClient client itemObjectId).1
       ++ (List.filter isLakehouse allItems ≫= warningsOf client ws),
     loadFilesCommit
       (Listed ws (List.filter isLakehouse allItems
                     ≫= filesOf getPath parseNumber client ws))
       (loadFilesBegin st)).
Proof.
  intros Hws Hne Hitems Hlake.
  unfold loadFiles, loadFilesRun.
  rewrite (loadFilesTry_resolved ws Hws Hne), listWorkspace_cases, Hitems.
  by destruct (List.filter isLakehouse allItems).
Qed.

(** A build whose [try] throws: the outer [catch]. *)
Lemma loadFiles_failed e st :
  (loadFilesTry getPath parseNumber workloadClient client itemObjectId).2
  = Failed e ->
  loadFiles getPath parseNumber workloadClient (Some client) itemObjectId st
  = ((loadFilesTry getPath parseNumber workloadClient client itemObjectId).1
       ++ [ConsoleError "Failed to load files:" e],
     loadFilesCommit (Failed e) (loadFilesBegin st)).
Proof. intros H. unfold loadFiles, loadFilesRun. by rewrite H. Qed.

(** The entries flagged as directories are among those the loop skips. *)
Lemma FlaggedDirectory_skipped p :
  FlaggedDirectory p -> isDirectoryEntry p = true.
Proof. unfold isDirectoryEntry. by intros [-> | ->]. Qed.

Lemma filesOf_origin ws lakehouse f :
  f ∈ filesOf getPath parseNumber client ws lakehouse ->
  exists p,
    p ∈ entriesOf client ws lakehouse /\ ~ FlaggedDirectory p /\
    f = toFile getPath parseNumber ws lakehouse p.
Proof.
  unfold filesOf, fileEntriesOf.
  intros (p & -> & Hp)%list_elem_of_fmap.
  apply list_elem_of_In, filter_In in Hp as [Hp Hdir].
  exists p. split; [by apply list_elem_of_In|]. split; [|done].
  intros Hflag%FlaggedDirectory_skipped. by rewrite Hflag in Hdir.
Qed.

(** A build that lists has found the items of its workspace, and commits
    what their Lakehouses contribute. *)
Lemma loadFilesRun_Listed_inv ws allFiles :
  (loadFilesRun getPath parseNumber workloadClient client itemObjectId).2
  = Listed ws allFiles ->
  exists allItems,
    getAllItems client ws = Ok allItems /\
    allFiles
    = List.filter isLakehouse allItems
        ≫= filesOf getPath parseNumber client ws.
Proof.
  intros E. unfold loadFilesRun in E.
  destruct (loadFilesTry _ _ _ _ _).2 as [|ws'|ws' allFiles'|e'] eqn:E';
    try (by destruct (loadFilesTry _ _ _ _ _); simplify_eq/=).
  assert (ws' = ws /\ allFiles' = allFiles) as [-> ->].
  { destruct (loadFilesTry _ _ _ _ _); simplify_eq/=. done. }
  clear E. unfold loadFilesTry in E'.
  destruct (resolveWorkspace _ _ _).2 as [[w|]|]; simpl in E'; try done.
  destruct (Js.truthy w); simpl in E'; [|done].
  rewrite listWorkspace_cases in E'.
  destruct (getAllItems client w) as [allItems|] eqn:Hitems; [|done].
  destruct (List.filter isLakehouse allItems) as [|l ls] eqn:Hl; [done|].
  rewrite <- Hl in E'. cbn [snd] in E'. injection E' as -> <-.
  by exists allItems.
Qed.

(** C8.  Whatever way a build ends, no entry flagged as a directory
    yields a record: a build that lists commits exactly the records of
    the entries that are not skipped as directories, Lakehouse by
    Lakehouse, and every flagged entry is skipped; a build that finds no
    Lakehouse commits the empty list, and any other build leaves [files]
    as it was. *)
Theorem loadFiles_excludes_directories (st : State.t) :
  let st' :=
    (loadFiles getPath parseNumber workloadClient (Some client)
               itemObjectId st).2 in
  (forall p, FlaggedDirectory p -> isDirectoryEntry p = true) /\
  match (loadFilesRun getPath parseNumber workloadClient client
                      itemObjectId).2 with
  | Listed ws allFiles =>
      State.files st' = allFiles /\
      exists allItems,
        getAllItems client ws = Ok allItems /\
        allFiles
        = List.filter isLakehouse allItems ≫=
            (fun lakehouse =>
               toFile getPath parseNumber ws lakehouse
                 <$> List.filter (fun p => negb (isDirectoryEntry p))
                                 (entriesOf client ws lakehouse)) /\
        forall f,
          f ∈ allFiles ->
          exists lakehouse p,
            lakehouse ∈ List.filter isLakehouse allItems /\
            p ∈ entriesOf client ws lakehouse /\
            ~ FlaggedDirectory p /\
            f = toFile getPath parseNumber ws lakehouse p
  | NoLakehouses _ => State.files st' = []
  | NoWorkspace | Failed _ => State.files st' = State.files st
  end.
Proof.
  split; [exact FlaggedDirectory_skipped|].
  unfold loadFiles.
  destruct (loadFilesRun _ _ _ _ _).2 as [|ws|ws allFiles|e] eqn:E;
    try reflexivity.
  split; [reflexivity|].
  destruct (loadFilesRun_Listed_inv _ _ E) as (allItems & Hitems & ->).
  exists allItems. split; [done|]. split; [done|].
  intros f (lakehouse & Hf & Hin)%list_elem_of_bind.
  destruct (filesOf_origin _ _ _ Hf) as (p & ? & ? & ?).
  by exists lakehouse, p.
Qed.

(** When the item yields no workspace, [workspaceId] is still null at the
    fallback. *)
Lemma workspaceOfItem_falsy :
  Js.truthyOpt (workspaceOfItem workloadClient itemObjectId).2 = false ->
  (workspaceOfItem workloadClient itemObjectId).2 = None.
Proof.
  unfold workspaceOfItem.
  destruct itemObjectId as [itemId|]; [|done].
  destruct (Js.truthy itemId); [|done].
  destruct (getItem workloadClient itemId) as [r|err]; [|done].
  simpl. unfold orNull.
  destruct (Js.truthyOpt (itemWorkspaceId r)) eqn:E; [congruence|done].
Qed.

(** The ways the item yields no workspace: no item id, a rejected
    [getItem], or a result without a workspace id. *)
Lemma workspaceOfItem_nothing :
  (Js.truthyOpt itemObjectId = false \/
   exists itemId,
     itemObjectId = Some itemId /\
     ((exists e, getItem workloadClient itemId = Throw e) \/
      (exists r, getItem workloadClient itemId = Ok r /\
                 Js.truthyOpt (itemWorkspaceId r) = false))) ->
  Js.truthyOpt (workspaceOfItem workloadClient itemObjectId).2 = false.
Proof.
  unfold workspaceOfItem.
  intros [H|(itemId & -> & [[e He]|(r & Hr & Hnone)])].
  - destruct itemObjectId as [itemId|]; [|done].
    simpl in H. by rewrite H.
  - rewrite He. by destruct (Js.truthy itemId).
  - rewrite Hr. destruct (Js.truthy itemId); [|done].
    simpl. unfold orNull. by rewrite Hnone.
Qed.

(** C4.  When the fallback workspace listing or the item listing of the
    resolved workspace throws [e], the build ends with the top-level
    [error] set to the message derived from [e] and [loading] false;
    [files] (as well as the workspace id and the preview) stay as they
    were, and the failure is logged as an error. *)
Theorem loadFiles_top_level_failure (st : State.t) (e : Thrown) :
  (Js.truthyOpt (workspaceOfItem workloadClient itemObjectId).2 = false /\
   getAllWorkspaces client = Throw e) \/
  (exists ws,
      (resolveWorkspace workloadClient client itemObjectId).2
      = Ok (Some ws) /\
      Js.truthy ws = true /\
      getAllItems client ws = Throw e) ->
  let r :=
    loadFiles getPath parseNumber workloadClient (Some client)
              itemObjectId st in
  State.error r.2 = Some (getErrorMessage e) /\
  State.loading r.2 = false /\
  State.files r.2 = State.files st /\
  State.workspaceId r.2 = State.workspaceId st /\
  State.selectedFile r.2 = State.selectedFile st /\
  ConsoleError "Failed to load files:" e ∈ r.1.
Proof.
  intros H r. subst r.
  assert (Hfail :
            (loadFilesTry getPath parseNumber workloadClient client
                          itemObjectId).2 = Failed e).
  { destruct H as [[Hnone Hthrow]|(ws & Hws & Hne & Hthrow)].
    - unfold loadFilesTry, resolveWorkspace. by rewrite Hnone, Hthrow.
    - rewrite (loadFilesTry_resolved ws Hws Hne), listWorkspace_cases.
      by rewrite Hthrow. }
  rewrite (loadFiles_failed e st Hfail). simpl. repeat split.
  apply elem_of_app. right. by apply list_elem_of_singleton.
Qed.

(** C6.  When the item yields no workspace, the build asks for the
    accessible workspaces and takes the id of the first as [workspaceId];
    with that id it goes on to list the workspace.  When no workspace is
    resolved either way, the build ends with the "No workspace found"
    error and [loading] false, and leaves [files] as they were. *)
Theorem loadFiles_workspace_fallback
    (st : State.t) (workspaces : list Workspace.t) :
  Js.truthyOpt (workspaceOfItem workloadClient itemObjectId).2 = false ->
  getAllWorkspaces client = Ok workspaces ->
  let r :=
    loadFiles getPath parseNumber workloadClient (Some client)
              itemObjectId st in
  (resolveWorkspace workloadClient client itemObjectId).2
  = Ok (Workspace.id <$> head workspaces) /\
  if Js.truthyOpt (Workspace.id <$> head workspaces)
  then
    exists w rest,
      workspaces = w :: rest /\
      loadFilesTry getPath parseNumber workloadClient client itemObjectId
      = ((workspaceOfItem workloadClient itemObjectId).1
           ++ (listWorkspace getPath parseNumber client (Workspace.id w)).1,
         (listWorkspace getPath parseNumber client (Workspace.id w)).2)
  else
    State.error r.2
    = Some "No workspace found. Please ensure you have access to a Fabric workspace." /\
    State.loading r.2 = false /\
    State.files r.2 = State.files st /\
    State.workspaceId r.2 = State.workspaceId st.
Proof.
  intros Hnone Hlist r. subst r.
  assert (Hres :
            resolveWorkspace workloadClient client itemObjectId
            = ((workspaceOfItem workloadClient itemObjectId).1,
               Ok (Workspace.id <$> head workspaces))).
  { unfold resolveWorkspace. rewrite Hnone, Hlist.
    destruct workspaces; [|done]. simpl. by rewrite workspaceOfItem_falsy. }
  split; [by rewrite Hres|].
  unfold loadFiles, loadFilesRun, loadFilesTry. rewrite Hres. simpl.
  destruct workspaces as [|w rest]; simpl; [done|].
  destruct (Js.truthy (Workspace.id w)) eqn:Hw; [|done].
  by exists w, rest.
Qed.






End Build.

(** Whatever [getPath] is, a listing that repeats an entry yields two
    records with the same [fullPath]. *)
Lemma repeated_entry_repeats_fullPath getPath parseNumber :
  ~ FullPathsUnique
      (loadFiles getPath parseNumber Sample.workloadClient
                 (Some Sample.repeating) None State.initial).2.
Proof.
  unfold FullPathsUnique. intros H.
  cbv -[pretty String.append] in H.
  apply NoDup_cons in H as [Hnotin _]. apply Hnotin. by left.
Qed.


(** *** The statements on the sample workspace *)


(** C4 on the sample workspace when the item listing is refused. *)
Lemma loadFiles_top_level_failure_witness :
  let r :=
    loadFiles Sample.getPath Sample.parseNumber Sample.workloadClient
              (Some Sample.refused) (Some "item-1") State.initial in
  State.error r.2 = Some "HTTP 403: Forbidden" /\
  State.loading r.2 = false /\
  State.files r.2 = [] /\
  ConsoleError "Failed to load files:" Sample.forbidden ∈ r.1.
Proof.
  destruct (loadFiles_top_level_failure
              Sample.getPath Sample.parseNumber Sample.workloadClient
              Sample.refused (Some "item-1") State.initial Sample.forbidden)
    as (Herror & Hloading & Hfiles & _ & _ & Hlog).
  - right. exists "ws1". repeat split; reflexivity.
  - repeat split; assumption.
Defined.

(** C6 on the sample workspace: the item is not found and the fallback
    list is [["ws1"]], or is empty. *)
Lemma loadFiles_workspace_fallback_witness :
  (resolveWorkspace Sample.workloadClient Sample.client (Some "item-1")).2
  = Ok (Some "ws1") /\
  State.error
    (loadFiles Sample.getPath Sample.parseNumber Sample.workloadClient
               (Some Sample.stranded) (Some "item-1") State.initial).2
  = Some "No workspace found. Please ensure you have access to a Fabric workspace.".
Proof.
  split.
  - exact (proj1 (loadFiles_workspace_fallback
                    Sample.getPath Sample.parseNumber Sample.workloadClient
                    Sample.client (Some "item-1") State.initial
                    [ {| Workspace.id := "ws1" |} ]
                    eq_refl eq_refl)).
  - exact (proj1 (proj2 (loadFiles_workspace_fallback
                    Sample.getPath Sample.parseNumber Sample.workloadClient
                    Sample.stranded (Some "item-1") State.initial []
                    eq_refl eq_refl))).
Defined.

(* ===================================================================== *)
(** ** Preview life cycle                                                 *)
(* ===================================================================== *)

Lemma revokeBlobUrl_held st :
  revokeBlobUrl st
  = match Hook.held st with
    | Some url => [RevokeObjectURL url]
    | None => []
    end.
Proof.
  unfold revokeBlobUrl, Hook.held.
  destruct (State.selectedFile st) as [preview|]; [|done].
  destruct (FilePreview.blobUrl preview) as [url|]; [|done].
  by destruct (Js.truthy url).
Qed.

Lemma live_app es es' :
  Hook.live (es ++ es')
  = fold_left
      (fun store e =>
         match e with
         | CreateObjectURL url => store ++ [url]
         | RevokeObjectURL url => Hook.revoke url store
         | _ => store
         end)
      es' (Hook.live es).
Proof. unfold Hook.live. apply fold_left_app. Qed.

(** The events leave the closure of the first render alone. *)
Lemma step_mountState h ev :
  Hook.mountState (Hook.step h ev) = Hook.mountState h.
Proof. destruct ev; simpl; try done; by destruct (Hook.clientRef h). Qed.

Lemma run_mountState h evs :
  Hook.mountState (Hook.run h evs) = Hook.mountState h.
Proof.
  unfold Hook.run. revert h.
  induction evs as [|ev evs IH]; intros h; simpl; [done|].
  by rewrite IH, step_mountState.
Qed.

(** The unmount clean-up of a mounted hook never releases anything,
    whatever happened since the first render. *)
Lemma unmount_releases_nothing client evs :
  Hook.unmount (Hook.run (Hook.mount client) evs) = [].
Proof. unfold Hook.unmount. by rewrite run_mountState. Qed.

(** [selectFile] and [closePreview] do release the blob URL the state
    holds when they are called. *)
Lemma selectFileBegin_releases file prev :
  (selectFileBegin file prev).1
  = match Hook.held prev with
    | Some url => [RevokeObjectURL url]
    | None => []
    end /\
  Hook.held (selectFileBegin file prev).2 = None.
Proof. split; [apply revokeBlobUrl_held|done]. Qed.

Lemma closePreview_releases prev :
  (closePreview prev).1
  = match Hook.held prev with
    | Some url => [RevokeObjectURL url]
    | None => []
    end /\
  State.selectedFile (closePreview prev).2 = None.
Proof. split; [apply revokeBlobUrl_held|done]. Qed.

(** Calling [selectFile] on a hook that owns its blob URL empties the
    store. *)
Lemma Owned_selectFileCalled h file :
  Hook.Owned h ->
  is_Some (Hook.clientRef h) ->
  let h' := Hook.step h (Hook.SelectFileCalled file) in
  Hook.live (Hook.effects h') = [] /\ Hook.held (Hook.state h') = None.
Proof.
  unfold Hook.Owned. intros Howned [client Hclient]. simpl.
  rewrite Hclient. simpl. split; [|done].
  rewrite live_app, revokeBlobUrl_held, Howned.
  destruct (Hook.held (Hook.state h)) as [url|]; simpl; [|done].
  by rewrite String.eqb_refl.
Qed.

(** Settling a [selectFile] on an empty store leaves at most one live blob
    URL, the one the state holds. *)
Lemma Owned_selectFileSettled h file o :
  Hook.live (Hook.effects h) = [] ->
  (forall url, o = Loaded url -> Js.truthy url = true) ->
  let h' := Hook.step h (Hook.SelectFileSettled file o) in
  Hook.Owned h' /\ length (Hook.live (Hook.effects h')) <= 1.
Proof.
  unfold Hook.Owned. intros Hempty Hurl. simpl.
  destruct o as [url|err]; simpl; rewrite live_app, Hempty; simpl.
  - unfold Hook.held. simpl. by rewrite (Hurl url eq_refl).
  - split; [done|lia].
Qed.

(** X9.  Two [selectFile] calls, the first settled before the second is
    made: at each of the four instants at most one blob URL is live, and
    at the end the store holds exactly the blob URL of the state. *)
Lemma sequential_selects_exclusive h fileX fileY oX oY :
  Hook.Owned h ->
  is_Some (Hook.clientRef h) ->
  (forall url, oX = Loaded url -> Js.truthy url = true) ->
  (forall url, oY = Loaded url -> Js.truthy url = true) ->
  let h1 := Hook.step h (Hook.SelectFileCalled fileX) in
  let h2 := Hook.step h1 (Hook.SelectFileSettled fileX oX) in
  let h3 := Hook.step h2 (Hook.SelectFileCalled fileY) in
  let h4 := Hook.step h3 (Hook.SelectFileSettled fileY oY) in
  Forall (fun hi => length (Hook.live (Hook.effects hi)) <= 1)
         [h1; h2; h3; h4] /\
  Hook.Owned h4.
Proof.
  intros Howned Hclient HX HY h1 h2 h3 h4.
  destruct (Owned_selectFileCalled h fileX Howned Hclient) as [E1 _].
  fold h1 in E1.
  destruct (Owned_selectFileSettled h1 fileX oX E1 HX) as [O2 L2].
  fold h2 in O2, L2.
  assert (Hclient2 : is_Some (Hook.clientRef h2)).
  { subst h2 h1. simpl. destruct Hclient as [c Hc]. by rewrite Hc. }
  destruct (Owned_selectFileCalled h2 fileY O2 Hclient2) as [E3 _].
  fold h3 in E3.
  destruct (Owned_selectFileSettled h3 fileY oY E3 HY) as [O4 L4].
  fold h4 in O4, L4.
  split; [|done].
  repeat apply Forall_cons_2; [rewrite E1|done|rewrite E3|done|];
    simpl; try lia. constructor.
Qed.

(** C1, on the code.  A file is selected and its preview becomes ready,
    holding a blob URL; the hook is then unmounted.  Run on the current
    state, the release would revoke that URL once; the clean-up runs on
    the state of the first render, where nothing is selected, and
    releases nothing: the blob URL stays live. *)
Theorem unmount_while_ready_releases_nothing
    (client : FabricPlatformAPIClient) (file : OneLakeFile.t)
    (c : ascii) (rest : string) :
  let blobUrl := String c rest in
  let h :=
    Hook.run (Hook.mount client)
             [Hook.SelectFileCalled file;
              Hook.SelectFileSettled file (Loaded blobUrl)] in
  State.selectedFile (Hook.state h)
  = Some {| FilePreview.file := file;
            FilePreview.blobUrl := Some blobUrl;
            FilePreview.loading := false;
            FilePreview.error := None |} /\
  revokeBlobUrl (Hook.state h) = [RevokeObjectURL blobUrl] /\
  Hook.unmount h = [] /\
  Hook.live (Hook.effects h ++ Hook.unmount h) = [blobUrl].
Proof. by repeat split. Qed.

(** C2, on the code.  [selectFile fileX] and [selectFile fileY] are
    called one after the other, before either fetch has settled; the two
    fetches then settle.  No blob URL is ever revoked: both are live at
    the end, and the state holds only the second. *)
Theorem overlapping_selects_leave_two_live
    (client : FabricPlatformAPIClient) (fileX fileY : OneLakeFile.t) :
  let h :=
    Hook.run (Hook.mount client)
             [Hook.SelectFileCalled fileX;
              Hook.SelectFileCalled fileY;
              Hook.SelectFileSettled fileX (Loaded "blob:x");
              Hook.SelectFileSettled fileY (Loaded "blob:y")] in
  Hook.effects h = [CreateObjectURL "blob:x"; CreateObjectURL "blob:y"] /\
  Hook.live (Hook.effects h) = ["blob:x"; "blob:y"] /\
  Hook.held (Hook.state h) = Some "blob:y" /\
  ~ Hook.Owned h.
Proof. by repeat split. Qed.

(* ===================================================================== *)
(** ** A build among other commands                                       *)
(* ===================================================================== *)

Lemma run_app h evs evs' :
  Hook.run h (evs ++ evs') = Hook.run (Hook.run h evs) evs'.
Proof. unfold Hook.run. apply fold_left_app. Qed.

(** The commands other than [loadFiles] never set the top-level [error]
    and never touch [files]. *)
Lemma other_command_keeps_error_and_files h ev :
  match ev with
  | Hook.LoadFilesCalled | Hook.LoadFilesSettled _ _ => False
  | _ => True
  end ->
  State.error (Hook.state h) = None ->
  State.error (Hook.state (Hook.step h ev)) = None /\
  State.files (Hook.state (Hook.step h ev)) = State.files (Hook.state h).
Proof.
  destruct ev as [| | |file [url|err]| | | |]; simpl; try done.
  by destruct (Hook.clientRef h).
Qed.

Lemma other_commands_keep_error_and_files h evs :
  Forall (fun ev =>
            match ev with
            | Hook.LoadFilesCalled | Hook.LoadFilesSettled _ _ => False
            | _ => True
            end) evs ->
  State.error (Hook.state h) = None ->
  State.error (Hook.state (Hook.run h evs)) = None /\
  State.files (Hook.state (Hook.run h evs)) = State.files (Hook.state h).
Proof.
  intros Hevs. revert h.
  induction Hevs as [|ev evs Hev _ IH]; intros h Herr; [done|].
  change (Hook.run h (ev :: evs)) with (Hook.run (Hook.step h ev) evs).
  destruct (other_command_keeps_error_and_files h ev Hev Herr) as [H1 H2].
  destruct (IH (Hook.step h ev) H1) as [H3 H4].
  split; [done|congruence].
Qed.

(** X13.  A build that lists commits its files with a null [error] also
    when selections, searches and the like are handled while it
    awaits. *)
Lemma interleaved_build_commits h evs log ws allFiles :
  is_Some (Hook.clientRef h) ->
  Forall (fun ev =>
            match ev with
            | Hook.LoadFilesCalled | Hook.LoadFilesSettled _ _ => False
            | _ => True
            end) evs ->
  let h' :=
    Hook.run h (Hook.LoadFilesCalled
                  :: evs ++ [Hook.LoadFilesSettled log (Listed ws allFiles)])
  in
  State.error (Hook.state h') = None /\
  State.files (Hook.state h') = allFiles /\
  State.loading (Hook.state h') = false /\
  State.workspaceId (Hook.state h') = Some ws.
Proof.
  intros [c Hc] Hevs h'. subst h'.
  change (Hook.run h (Hook.LoadFilesCalled :: ?l))
    with (Hook.run (Hook.step h Hook.LoadFilesCalled) l).
  rewrite run_app. simpl. rewrite Hc.
  destruct (other_commands_keep_error_and_files
              (Hook.update h ([], loadFilesBegin (Hook.state h))) evs Hevs)
    as [Herr _]; [done|].
  by rewrite Herr.
Qed.

(* ===================================================================== *)
(** ** More on the catalog build                                          *)
(* ===================================================================== *)

Section BuildMore.

Variable getPath : string -> string -> string -> string.
Variable parseNumber : string -> option Z.
Variable workloadClient : WorkloadClientAPI.
Variable client : FabricPlatformAPIClient.
Variable itemObjectId : option string.

Lemma loadFilesTry_log_no_error msg err :
  ConsoleError msg err
    ∉ (loadFilesTry getPath parseNumber workloadClient client
                    itemObjectId).1.
Proof.
  unfold loadFilesTry.
  assert (Hres : ConsoleError msg err
                   ∉ (resolveWorkspace workloadClient client itemObjectId).1).
  { by intros [? ?]%resolveWorkspace_log. }
  destruct (resolveWorkspace _ _ _).2 as [[ws|]|e]; try done.
  destruct (Js.truthy ws); [|done]. cbn [fst].
  rewrite listWorkspace_cases.
  destruct (getAllItems client ws) as [allItems|e];
    [|by rewrite app_nil_r].
  destruct (List.filter isLakehouse allItems) as [|l ls] eqn:E;
    [by rewrite app_nil_r|].
  rewrite <- E. cbn [fst].
  intros [H|H]%elem_of_app; [done|].
  by destruct (warningsOf_log _ _ _ _ H) as (? & ? & _ & ?).
Qed.

(** X1.  Whatever state a build finds when it settles (other commands
    and other builds may have run while it awaited), its last [setState]
    sets [loading] to false and leaves the preview and the search query
    alone.  Every ending but a listing sets a non-null [error]; a listing
    leaves [error] as it finds it, which is null when nothing has updated
    the state since the build started.  The build logs to
    [console.error] exactly when its [try] threw. *)
Theorem loadFiles_settlement_frame (prev : State.t) :
  let r :=
    loadFilesRun getPath parseNumber workloadClient client itemObjectId in
  let st' := loadFilesCommit r.2 prev in
  State.loading st' = false /\
  State.selectedFile st' = State.selectedFile prev /\
  State.searchQuery st' = State.searchQuery prev /\
  match r.2 with
  | Listed ws allFiles =>
      State.error st' = State.error prev /\
      State.error (loadFilesCommit r.2 (loadFilesBegin prev)) = None
  | _ => is_Some (State.error st')
  end /\
  ((exists msg err, ConsoleError msg err ∈ r.1) <-> exists e, r.2 = Failed e).
Proof.
  cbn zeta.
  pose proof loadFilesTry_log_no_error as Hlog.
  unfold loadFilesRun in *.
  destruct (loadFilesTry _ _ _ _ _) as [log outcome] eqn:E.
  cbn [fst snd] in *.
  destruct outcome as [|ws|ws allFiles|e]; cbn;
    (split; [done|]); (split; [done|]); (split; [done|]);
    (split; [by eauto|]); split;
    try solve
      [ by intros [? ?]
      | by eauto
      | intros (msg & err & H); by destruct (Hlog msg err) ].
  intros _. exists "Failed to load files:", e.
  apply elem_of_app. right. by apply list_elem_of_singleton.
Qed.

(** X2.  A build that resolves a workspace without any Lakehouse item
    ends with [files] emptied (whatever was listed before), the
    workspace id recorded, [loading] false and the "No Lakehouses found"
    guidance as [error]; it lists nothing and logs no listing warning. *)
Theorem loadFiles_without_lakehouse
    (st : State.t) (ws : string) (allItems : list Item.t) :
  (resolveWorkspace workloadClient client itemObjectId).2 = Ok (Some ws) ->
  Js.truthy ws = true ->
  getAllItems client ws = Ok allItems ->
  (forall item, item ∈ allItems -> Item.type item <> "Lakehouse") ->
  let r :=
    loadFiles getPath parseNumber workloadClient (Some client)
              itemObjectId st in
  State.files r.2 = [] /\
  State.workspaceId r.2 = Some ws /\
  State.loading r.2 = false /\
  State.error r.2
  = Some "No Lakehouses found in this workspace. Create a Lakehouse and upload files to see them here." /\
  r.1 = (resolveWorkspace workloadClient client itemObjectId).1.
Proof.
  intros Hws Hne Hitems Hnone r. subst r.
  assert (Hfilter : List.filter isLakehouse allItems = []).
  { clear Hitems. induction allItems as [|item items IH]; [done|]. simpl.
    unfold isLakehouse at 1.
    destruct (String.eqb_spec (Item.type item) "Lakehouse") as [Heq|_].
    - destruct (Hnone item); [by left|done].
    - apply IH. intros i Hi. apply Hnone. by right. }
  unfold loadFiles, loadFilesRun.
  rewrite (loadFilesTry_resolved _ _ _ _ _ ws Hws Hne), listWorkspace_cases.
  rewrite Hitems, Hfilter. cbn. by rewrite app_nil_r.
Qed.

(** X3.  When the item resolves to a workspace, the fallback is not
    consulted: the build is the same whatever [getAllWorkspaces] would
    return or throw. *)
Theorem loadFiles_ignores_fallback_when_item_resolves
    (st : State.t) (workspaces : Result (list Workspace.t)) :
  Js.truthyOpt (workspaceOfItem workloadClient itemObjectId).2 = true ->
  loadFiles getPath parseNumber workloadClient
            (Some {| getAllWorkspaces := workspaces;
                     getAllItems := getAllItems client;
                     getPathMetadata := getPathMetadata client |})
            itemObjectId st
  = loadFiles getPath parseNumber workloadClient (Some client)
              itemObjectId st.
Proof.
  intros H.
  unfold loadFiles, loadFilesRun, loadFilesTry, resolveWorkspace.
  by rewrite H.
Qed.

(** X4.  For an entry named ["{lakehouseId}/Files/{rest}"] the record's
    [relativePath] is [rest] and its [fullPath] is [getPath] of the
    workspace, the Lakehouse and ["Files/" + relativePath]; an entry
    whose name does not start with ["{lakehouseId}/"] is handed to
    [getPath] whole. *)
Theorem toFile_fullPath_relativePath
    (ws : string) (lakehouse : Item.t) (p : PathEntry.t) (rest : string) :
  let entry name :=
    {| PathEntry.name := name;
       PathEntry.isDirectory := PathEntry.isDirectory p;
       PathEntry.contentLength := PathEntry.contentLength p;
       PathEntry.lastModified := PathEntry.lastModified p |} in
  let f :=
    toFile getPath parseNumber ws lakehouse
           (entry (Item.id lakehouse +:+ "/Files/" +:+ rest)) in
  OneLakeFile.relativePath f = rest /\
  OneLakeFile.fullPath f
  = getPath ws (Item.id lakehouse) ("Files/" +:+ OneLakeFile.relativePath f) /\
  (if Js.startsWith (PathEntry.name p) (Item.id lakehouse +:+ "/")
   then True
   else OneLakeFile.fullPath (toFile getPath parseNumber ws lakehouse p)
        = getPath ws (Item.id lakehouse) (PathEntry.name p)).
Proof.
  cbn zeta. cbn [toFile OneLakeFile.relativePath OneLakeFile.fullPath
                 PathEntry.name].
  rewrite relativePathOf_prefixed. split; [done|]. split.
  - f_equal. unfold itemPath.
    change (Item.id lakehouse +:+ "/Files/" +:+ rest)
      with (Item.id lakehouse +:+ ("/" +:+ ("Files/" +:+ rest))).
    rewrite <- (append_assoc (Item.id lakehouse) "/").
    rewrite startsWith_app.
    replace (String.length (Item.id lakehouse) + 1)
      with (String.length (Item.id lakehouse +:+ "/")).
    + apply substring_app.
    + clear. induction (Item.id lakehouse) as [|c s IH]; [done|].
      rewrite append_String. simpl. by rewrite IH.
  - unfold itemPath. by destruct (Js.startsWith _ _).
Qed.

End BuildMore.

(** X2 on a workspace that holds a notebook only, starting from a state
    that still shows a file. *)
Lemma loadFiles_without_lakehouse_witness :
  let st :=
    loadFilesCommit (Listed "ws0" [Sample2.fileX]) State.initial in
  let r :=
    loadFiles Sample.getPath Sample.parseNumber Sample.workloadClient
              (Some Sample2.bare) None st in
  State.files st = [Sample2.fileX] /\
  State.files r.2 = [] /\
  State.workspaceId r.2 = Some "ws1" /\
  State.loading r.2 = false.
Proof.
  cbn zeta.
  destruct (loadFiles_without_lakehouse
              Sample.getPath Sample.parseNumber Sample.workloadClient
              Sample2.bare None
              (loadFilesCommit (Listed "ws0" [Sample2.fileX]) State.initial)
              "ws1" [Sample.notebook] eq_refl eq_refl eq_refl)
    as (Hfiles & Hws & Hloading & _).
  - intros item ->%list_elem_of_singleton. discriminate.
  - by repeat split.
Defined.

(** X3 on the sample workspace: the item resolves, the workspace list
    would be refused. *)
Lemma loadFiles_ignores_fallback_when_item_resolves_witness :
  loadFiles Sample.getPath Sample.parseNumber Sample2.resolving
            (Some Sample2.listless) (Some "item-1") State.initial
  = loadFiles Sample.getPath Sample.parseNumber Sample2.resolving
              (Some Sample.client) (Some "item-1") State.initial.
Proof.
  exact (loadFiles_ignores_fallback_when_item_resolves
           Sample.getPath Sample.parseNumber Sample2.resolving
           Sample.client (Some "item-1") State.initial
           (Throw Sample.forbidden) eq_refl).
Defined.

(* ===================================================================== *)
(** ** More on the extension predicates                                   *)
(* ===================================================================== *)

Lemma lowerChar_idem c : Js.lowerChar (Js.lowerChar c) = Js.lowerChar c.
Proof. by destruct c as [[] [] [] [] [] [] [] []]. Qed.

Lemma lowerChar_dot c : Ascii.eqb (Js.lowerChar c) "." = Ascii.eqb c ".".
Proof. by destruct c as [[] [] [] [] [] [] [] []]. Qed.

Lemma toLowerCase_idem s : Js.toLowerCase (Js.toLowerCase s) = Js.toLowerCase s.
Proof.
  induction s as [|c s IH]; [done|]. simpl. by rewrite lowerChar_idem, IH.
Qed.

(** Lowercasing commutes with splitting at the dots. *)
Lemma split_toLowerCase s :
  Js.split "." (Js.toLowerCase s) = Js.toLowerCase <$> Js.split "." s.
Proof.
  induction s as [|c s IH]; [done|]. simpl.
  rewrite lowerChar_dot, IH.
  destruct (Ascii.eqb c "."); [done|].
  pose proof (split_nonempty "." s). by destruct (Js.split "." s).
Qed.

Lemma getFileExtension_of_lower n :
  getFileExtension n
  = Js.orElseOpt (Js.pop (Js.split "." (Js.toLowerCase n))) "".
Proof.
  unfold getFileExtension, Js.pop. rewrite split_toLowerCase, fmap_last.
  destruct (last (Js.split "." n)) as [seg|]; [|done].
  simpl. by rewrite !orElse_empty.
Qed.

(** X6.  For names of Latin-1 characters, where [toLowerCase] works
    character by character, the extension ignores the case of the name:
    two names that differ in case only have the same extension and fall
    under the same three predicates.  The extension itself is in lower
    case and holds no dot. *)
Theorem getFileExtension_case_insensitive (n m : string) :
  Js.toLowerCase n = Js.toLowerCase m ->
  getFileExtension n = getFileExtension m /\
  isPreviewable n = isPreviewable m /\
  isImage n = isImage m /\
  isPdf n = isPdf m /\
  Js.toLowerCase (getFileExtension n) = getFileExtension n /\
  hasChar "." (getFileExtension n) = false.
Proof.
  intros H.
  assert (Hext : getFileExtension n = getFileExtension m).
  { by rewrite (getFileExtension_of_lower n), (getFileExtension_of_lower m), H. }
  unfold isPreviewable, isImage, isPdf. rewrite Hext.
  repeat split.
  - unfold getFileExtension. apply toLowerCase_idem.
  - rewrite <- Hext.
    destruct (LastSegment_exists "." (Js.toLowerCase n)) as (seg & Hnone & Hshape).
    rewrite getFileExtension_of_lower.
    rewrite (LastSegment_pop "." _ seg (conj Hnone Hshape)).
    simpl. by rewrite orElse_empty.
Qed.

Lemma getFileExtension_case_insensitive_witness :
  getFileExtension "Plan.Final.PNG" = getFileExtension "plan.final.png" /\
  isImage "Plan.Final.PNG" = isImage "plan.final.png".
Proof.
  destruct (getFileExtension_case_insensitive
              "Plan.Final.PNG" "plan.final.png" eq_refl)
    as (H1 & _ & H2 & _).
  by split.
Defined.

(* ===================================================================== *)
(** ** More on the thrown values                                          *)
(* ===================================================================== *)

(** X14.  A thrown object whose [error] field is one of the numbers 0, 1
    and 2 is reported by the fixed authentication message of that code,
    whatever its [message], [statusCode], [statusText] and JSON text are;
    only an [Error] instance with a non-empty [message] is reported by
    that message instead. *)
Theorem getErrorMessage_auth_code (o : ErrorObject.t) (n : Z) (msg : string) :
  ErrorObject.error o = JsNumber n ->
  WORKLOAD_AUTH_ERROR_MESSAGES !! n = Some msg ->
  getErrorMessage (ThrowObject o)
  = if ErrorObject.instanceOfError o && JsVal.truthy (ErrorObject.message o)
    then JsVal.toText (ErrorObject.message o)
    else msg.
Proof.
  intros Herr Hmsg. unfold getErrorMessage, objectMessage, authErrorMessage.
  by rewrite Herr, Hmsg.
Qed.

Lemma getErrorMessage_auth_code_witness :
  getErrorMessage (ThrowObject Sample2.interactionRequired)
  = "User interaction failed during authentication. Please try again.".
Proof.
  exact (getErrorMessage_auth_code
           Sample2.interactionRequired 1%Z
           "User interaction failed during authentication. Please try again."
           eq_refl eq_refl).
Defined.

(* ===================================================================== *)
(** ** More on the preview                                                *)
(* ===================================================================== *)

Lemma step_PreviewShape h ev :
  from_option PreviewShape True (State.selectedFile (Hook.state h)) ->
  from_option PreviewShape True
              (State.selectedFile (Hook.state (Hook.step h ev))).
Proof.
  intros H.
  destruct ev as [|log [| | |]|file|file [url|err]| | | |]; simpl; try done.
  - by destruct (Hook.clientRef h).
  - destruct (Hook.clientRef h); [|done]. simpl. by left.
  - right. left. by exists url.
  - right. right. by exists (getErrorMessage err).
Qed.

(** X7.  Whatever happens to a mounted hook, the preview is absent or
    has one of three shapes: loading without blob URL or error, ready
    with a blob URL and no error, or failed with no blob URL and a
    message that starts with "Failed to load file: ". *)
Theorem preview_is_loading_ready_or_failed
    (client : FabricPlatformAPIClient) (evs : list Hook.Event) :
  match State.selectedFile (Hook.state (Hook.run (Hook.mount client) evs)) with
  | Some preview => PreviewShape preview
  | None => True
  end.
Proof.
  assert (H : forall h,
             from_option PreviewShape True
                         (State.selectedFile (Hook.state h)) ->
             from_option PreviewShape True
                         (State.selectedFile (Hook.state (Hook.run h evs)))).
  { unfold Hook.run. induction evs as [|ev evs IH]; intros h Hh; [done|].
    simpl. by apply IH, step_PreviewShape. }
  specialize (H (Hook.mount client) I).
  by destruct (State.selectedFile _).
Qed.

Lemma step_preview_event_catalog h ev :
  isPreviewEvent ev = true ->
  let st := Hook.state h in
  let st' := Hook.state (Hook.step h ev) in
  State.files st' = State.files st /\
  State.loading st' = State.loading st /\
  State.error st' = State.error st /\
  State.workspaceId st' = State.workspaceId st /\
  State.searchQuery st' = State.searchQuery st.
Proof.
  destruct ev as [| |file|file [url|err]| | | |]; simpl; try done.
  by destruct (Hook.clientRef h).
Qed.

(** X8.  Selecting, closing and downloading, in any number and order and
    however the fetches end, leave the catalog alone: [files], [loading],
    the top-level [error], the workspace id and the search query are
    what they were. *)
Theorem preview_commands_leave_catalog (h : Hook.t) (evs : list Hook.Event) :
  forallb isPreviewEvent evs = true ->
  let st := Hook.state h in
  let st' := Hook.state (Hook.run h evs) in
  State.files st' = State.files st /\
  State.loading st' = State.loading st /\
  State.error st' = State.error st /\
  State.workspaceId st' = State.workspaceId st /\
  State.searchQuery st' = State.searchQuery st.
Proof.
  cbn zeta. unfold Hook.run. revert h.
  induction evs as [|ev evs IH]; intros h Hevs; [done|].
  simpl in Hevs. apply andb_true_iff in Hevs as [Hev Hevs]. simpl.
  destruct (IH (Hook.step h ev) Hevs) as (-> & -> & -> & -> & ->).
  exact (step_preview_event_catalog h ev Hev).
Qed.

Lemma preview_commands_leave_catalog_witness :
  let h :=
    Hook.run (Hook.mount Sample.client)
             [Hook.LoadFilesCalled;
              Hook.LoadFilesSettled [] (Listed "ws1" [Sample2.fileX; Sample2.fileY])] in
  let h' :=
    Hook.run h [Hook.SelectFileCalled Sample2.fileX;
                Hook.SelectFileSettled Sample2.fileX
                                       (FetchFailed (ThrowString "offline"));
                Hook.SelectFileCalled Sample2.fileY;
                Hook.DownloadFile;
                Hook.ClosePreview] in
  State.files (Hook.state h') = [Sample2.fileX; Sample2.fileY] /\
  State.error (Hook.state h') = None.
Proof.
  cbn zeta.
  destruct (preview_commands_leave_catalog
              (Hook.run (Hook.mount Sample.client)
                 [Hook.LoadFilesCalled;
                  Hook.LoadFilesSettled
                    [] (Listed "ws1" [Sample2.fileX; Sample2.fileY])])
              [Hook.SelectFileCalled Sample2.fileX;
               Hook.SelectFileSettled Sample2.fileX
                                      (FetchFailed (ThrowString "offline"));
               Hook.SelectFileCalled Sample2.fileY;
               Hook.DownloadFile;
               Hook.ClosePreview]
              eq_refl)
    as (Hfiles & _ & Herror & _).
  split; [exact Hfiles|exact Herror].
Defined.

Lemma sequential_selects_exclusive_witness :
  let h4 :=
    Hook.run (Hook.mount Sample.client)
             [Hook.SelectFileCalled Sample2.fileX;
              Hook.SelectFileSettled Sample2.fileX (Loaded "blob:x");
              Hook.SelectFileCalled Sample2.fileY;
              Hook.SelectFileSettled Sample2.fileY (Loaded "blob:y")] in
  Hook.Owned h4 /\ Hook.live (Hook.effects h4) = ["blob:y"].
Proof.
  cbn zeta. split; [|reflexivity].
  refine (proj2 (sequential_selects_exclusive
                   (Hook.mount Sample.client) Sample2.fileX Sample2.fileY
                   (Loaded "blob:x") (Loaded "blob:y") eq_refl _ _ _)).
  - by eexists.
  - by intros url [= <-].
  - by intros url [= <-].
Defined.

Lemma interleaved_build_commits_witness :
  let h' :=
    Hook.run (Hook.mount Sample.client)
             [Hook.LoadFilesCalled;
              Hook.SelectFileCalled Sample2.fileX;
              Hook.SetSearchQuery "x";
              Hook.LoadFilesSettled [] (Listed "ws1" [Sample2.fileX])] in
  State.error (Hook.state h') = None /\
  State.files (Hook.state h') = [Sample2.fileX].
Proof.
  cbn zeta.
  destruct (interleaved_build_commits
              (Hook.mount Sample.client)
              [Hook.SelectFileCalled Sample2.fileX; Hook.SetSearchQuery "x"]
              [] "ws1" [Sample2.fileX])
    as (Herror & Hfiles & _).
  - by eexists.
  - by repeat constructor.
  - split; [exact Herror|exact Hfiles].
Defined.

(** X10.  On a hook that owns its blob URL, [closePreview] empties the
    store and the selection; a second [closePreview] finds nothing to
    release and changes nothing. *)
Theorem closePreview_releases_once (h : Hook.t) :
  Hook.Owned h ->
  let h1 := Hook.step h Hook.ClosePreview in
  let h2 := Hook.step h1 Hook.ClosePreview in
  Hook.live (Hook.effects h1) = [] /\
  State.selectedFile (Hook.state h1) = None /\
  Hook.Owned h1 /\
  h2 = h1.
Proof.
  unfold Hook.Owned. intros Howned. cbn zeta.
  assert (Hlive : Hook.live (Hook.effects (Hook.step h Hook.ClosePreview)) = []).
  { simpl. rewrite live_app, revokeBlobUrl_held, Howned.
    destruct (Hook.held (Hook.state h)) as [url|]; simpl; [|done].
    by rewrite String.eqb_refl. }
  repeat split; [exact Hlive|by rewrite Hlive|].
  simpl. unfold Hook.update. simpl. f_equal. apply app_nil_r.
Qed.

Lemma closePreview_releases_once_witness :
  let h :=
    Hook.run (Hook.mount Sample.client)
             [Hook.SelectFileCalled Sample2.fileX;
              Hook.SelectFileSettled Sample2.fileX (Loaded "blob:x")] in
  Hook.live (Hook.effects h) = ["blob:x"] /\
  Hook.live (Hook.effects (Hook.step h Hook.ClosePreview)) = [] /\
  Hook.step (Hook.step h Hook.ClosePreview) Hook.ClosePreview
  = Hook.step h Hook.ClosePreview.
Proof.
  cbn zeta.
  destruct (closePreview_releases_once
              (Hook.run (Hook.mount Sample.client)
                 [Hook.SelectFileCalled Sample2.fileX;
                  Hook.SelectFileSettled Sample2.fileX (Loaded "blob:x")])
              eq_refl)
    as (Hlive & _ & _ & Hsame).
  split; [reflexivity|]. split; [exact Hlive|exact Hsame].
Defined.

(** X11.  [downloadFile] clicks an anchor only on a ready preview, with
    its blob URL and the file name as download name; while the preview
    loads, after it failed and after it was closed it does nothing.  It
    never changes the state or the store of blob URLs. *)
Theorem downloadFile_only_when_ready
    (h : Hook.t) (file : OneLakeFile.t) (st : State.t) (err : Thrown)
    (c : ascii) (rest : string) :
  downloadFile (selectFileBegin file st).2 = [] /\
  downloadFile (selectFileSettle file (FetchFailed err) st).2 = [] /\
  downloadFile (closePreview st).2 = [] /\
  downloadFile (selectFileSettle file (Loaded (String c rest)) st).2
  = [AnchorClick (String c rest) (OneLakeFile.name file)] /\
  Hook.state (Hook.step h Hook.DownloadFile) = Hook.state h /\
  Hook.live (Hook.effects (Hook.step h Hook.DownloadFile))
  = Hook.live (Hook.effects h).
Proof.
  repeat split. simpl. rewrite live_app. unfold downloadFile.
  destruct (State.selectedFile (Hook.state h)) as [p|]; [|done].
  destruct (FilePreview.blobUrl p) as [url|]; [|done].
  by destruct (Js.truthy url).
Qed.

(** X12.  A fetch that settles installs the preview of its own file
    whatever happened since [selectFile] was called: closing the preview
    or selecting another file in the meantime does not cancel it. *)
Theorem selectFile_settlement_is_not_cancelled
    (h : Hook.t) (evs : list Hook.Event) (file : OneLakeFile.t)
    (o : FetchOutcome) :
  let h' :=
    Hook.run h (Hook.SelectFileCalled file
                  :: evs ++ [Hook.SelectFileSettled file o]) in
  exists preview,
    State.selectedFile (Hook.state h') = Some preview /\
    FilePreview.file preview = file /\
    FilePreview.loading preview = false /\
    FilePreview.blobUrl preview
    = match o with Loaded url => Some url | FetchFailed _ => None end.
Proof.
  cbn zeta.
  change (Hook.run h (?ev :: ?l)) with (Hook.run (Hook.step h ev) l).
  rewrite run_app. simpl.
  destruct o as [url|err]; eexists; by repeat split.
Qed.

(* ===================================================================== *)
(** ** Token claims                                                       *)
(* ===================================================================== *)

(** A string splits into one more part than it has separators. *)
Lemma split_length sep s :
  length (Js.split sep s) = JsText.countChar sep s + 1.
Proof.
  induction s as [|c s IH]; [done|]. simpl.
  destruct (Ascii.eqb c sep); simpl; [by rewrite IH|].
  pose proof (split_nonempty sep s).
  destruct (Js.split sep s); [done|]. simpl in *. lia.
Qed.

Lemma split_three sep a b c :
  hasChar sep a = false -> hasChar sep b = false -> hasChar sep c = false ->
  Js.split sep (a +:+ String sep (b +:+ String sep c)) = [a; b; c].
Proof.
  intros Ha Hb Hc.
  by rewrite !split_app_sep, !split_no_sep.
Qed.

Section JwtFacts.

Variable atob : string -> Result string.
Variable JSON_parse : string -> Result Json.

(** X15.  A token that does not have exactly two dots is not decoded:
    the claims are [null] and the email is [undefined], without a
    warning, whatever [atob] and [JSON.parse] would do. *)
Theorem decodeJwtClaims_needs_three_parts (token : string) :
  JsText.countChar "." token <> 2 ->
  decodeJwtClaims atob JSON_parse token = ([], JsonNull) /\
  extractEmailFromToken atob JSON_parse token = ([], None).
Proof.
  intros Hdots.
  assert (H : decodeJwtClaims atob JSON_parse token = ([], JsonNull)).
  { unfold decodeJwtClaims.
    pose proof (split_length "." token) as Hlen.
    destruct (Js.split "." token) as [|a [|b [|c [|d l]]]]; try done.
    simpl in Hlen. lia. }
  split; [exact H|]. unfold extractEmailFromToken. by rewrite H.
Qed.

(** X16.  Of a three-part token only the middle part is read: the result
    is that of decoding and parsing the payload, the same whatever the
    header and the signature are. *)
Theorem decodeJwtClaims_reads_payload_only (header payload signature : string) :
  hasChar "." header = false ->
  hasChar "." payload = false ->
  hasChar "." signature = false ->
  decodeJwtClaims atob JSON_parse
                  (header +:+ "." +:+ payload +:+ "." +:+ signature)
  = match atob (base64FromUrl payload) with
    | Ok decoded =>
        match JSON_parse decoded with
        | Ok claims => ([], claims)
        | Throw error => ([ConsoleWarn "Failed to decode JWT:" error], JsonNull)
        end
    | Throw error => ([ConsoleWarn "Failed to decode JWT:" error], JsonNull)
    end /\
  decodeJwtClaims atob JSON_parse
                  (header +:+ "." +:+ payload +:+ "." +:+ signature)
  = decodeJwtClaims atob JSON_parse ("." +:+ payload +:+ ".").
Proof.
  intros Hh Hp Hs. unfold decodeJwtClaims.
  change (header +:+ "." +:+ payload +:+ "." +:+ signature)
    with (header +:+ String "." (payload +:+ String "." signature)).
  change ("." +:+ payload +:+ ".")
    with ("" +:+ String "." (payload +:+ String "." "")).
  by rewrite !split_three.
Qed.

(** X18.  The email is the value of [email || upn || unique_name ||
    preferred_username], the first truthy of the four claims or the last
    one when none is truthy, and only when that value is a string: a
    non-empty string in [email], or in [upn] after a falsy [email], or in
    [unique_name] after two falsy ones, is returned; a truthy claim that
    is not a string gives [undefined] even when a later claim holds an
    address; when the first three are falsy, a string
    [preferred_username] is returned as it is, the empty string
    included. *)
Theorem extractEmailFromToken_first_truthy_claim
    (token : string) (log : list Effect) (fields : gmap string JsValue) :
  decodeJwtClaims atob JSON_parse token = (log, JsonObject fields) ->
  let claim key := default JsUndefined (fields !! key) in
  let email := (extractEmailFromToken atob JSON_parse token).2 in
  (extractEmailFromToken atob JSON_parse token).1 = log /\
  email
  = match firstTruthyOrLast
            [claim "email"; claim "upn"; claim "unique_name";
             claim "preferred_username"] with
    | JsString s => Some s
    | _ => None
    end /\
  (forall c rest, claim "email" = JsString (String c rest) ->
                  email = Some (String c rest)) /\
  (JsVal.truthy (claim "email") = true ->
   (forall s, claim "email" <> JsString s) ->
   email = None) /\
  (JsVal.truthy (claim "email") = false ->
   forall c rest, claim "upn" = JsString (String c rest) ->
                  email = Some (String c rest)) /\
  (JsVal.truthy (claim "email") = false ->
   JsVal.truthy (claim "upn") = false ->
   forall c rest, claim "unique_name" = JsString (String c rest) ->
                  email = Some (String c rest)) /\
  (JsVal.truthy (claim "email") = false ->
   JsVal.truthy (claim "upn") = false ->
   JsVal.truthy (claim "unique_name") = true ->
   (forall s, claim "unique_name" <> JsString s) ->
   email = None) /\
  (JsVal.truthy (claim "email") = false ->
   JsVal.truthy (claim "upn") = false ->
   JsVal.truthy (claim "unique_name") = false ->
   email = match claim "preferred_username" with
           | JsString s => Some s
           | _ => None
           end).
Proof.
  intros Hdec. cbn zeta. unfold extractEmailFromToken. rewrite Hdec.
  cbn [fst snd JsonVal.truthy negb]. unfold emailClaim, JsonVal.get.
  set (a := default JsUndefined (fields !! "email")).
  set (b := default JsUndefined (fields !! "upn")).
  set (c := default JsUndefined (fields !! "unique_name")).
  set (d := default JsUndefined (fields !! "preferred_username")).
  assert (Hchain :
            JsonVal.orElse (JsonVal.orElse (JsonVal.orElse a b) c) d
            = firstTruthyOrLast [a; b; c; d]).
  { unfold JsonVal.orElse. cbn [firstTruthyOrLast].
    destruct (JsVal.truthy a) eqn:Ea; [by rewrite !Ea|].
    destruct (JsVal.truthy b) eqn:Eb; [by rewrite !Eb|].
    by destruct (JsVal.truthy c) eqn:Ec. }
  rewrite Hchain. cbn [firstTruthyOrLast].
  split; [done|]. split; [done|]. split_and!.
  - intros ch rest ->. reflexivity.
  - intros Ha Hns. rewrite Ha. destruct a as [| | | |s|]; try done.
    by destruct (Hns s).
  - intros Ha ch rest Hb. by rewrite Ha, Hb.
  - intros Ha Hb ch rest Hc. by rewrite Ha, Hb, Hc.
  - intros Ha Hb Hc Hns. rewrite Ha, Hb, Hc.
    destruct c as [| | | |s|]; try done. by destruct (Hns s).
  - intros Ha Hb Hc. by rewrite Ha, Hb, Hc.
Qed.

End JwtFacts.

Section ReplaceChar.

Variables c d : ascii.
Hypothesis Hcd : c <> d.

Lemma length_replaceChar s :
  String.length (JsText.replaceChar c d s) = String.length s.
Proof. induction s as [|x s IH]; [done|]. simpl. by rewrite IH. Qed.

Lemma hasChar_replaceChar_gone s : hasChar c (JsText.replaceChar c d s) = false.
Proof.
  induction s as [|x s IH]; [done|]. simpl. rewrite IH, orb_false_r.
  destruct (Ascii.eqb_spec x c) as [->|Hx].
  - by apply Ascii.eqb_neq.
  - by apply Ascii.eqb_neq.
Qed.

Lemma hasChar_replaceChar_other y s :
  y <> c -> y <> d ->
  hasChar y (JsText.replaceChar c d s) = hasChar y s.
Proof.
  intros Hyc Hyd. induction s as [|x s IH]; [done|]. simpl. rewrite IH.
  f_equal. destruct (Ascii.eqb_spec x c) as [->|Hx]; [|done].
  rewrite (proj2 (Ascii.eqb_neq d y)); [|done].
  by rewrite (proj2 (Ascii.eqb_neq c y)).
Qed.

Lemma replaceChar_absent s :
  hasChar c s = false -> JsText.replaceChar c d s = s.
Proof.
  induction s as [|x s IH]; [done|]. simpl.
  intros [Hx Hs]%orb_false_iff. by rewrite Hx, (IH Hs).
Qed.

Lemma countChar_replaceChar_target s :
  JsText.countChar d (JsText.replaceChar c d s)
  = JsText.countChar d s + JsText.countChar c s.
Proof.
  induction s as [|x s IH]; [done|]. simpl. rewrite IH.
  destruct (Ascii.eqb_spec x c) as [->|Hx].
  - rewrite Ascii.eqb_refl, (proj2 (Ascii.eqb_neq c d)); [lia|done].
  - destruct (Ascii.eqb x d); lia.
Qed.

Lemma countChar_replaceChar_other y s :
  y <> c -> y <> d ->
  JsText.countChar y (JsText.replaceChar c d s) = JsText.countChar y s.
Proof.
  intros Hyc Hyd. induction s as [|x s IH]; [done|]. simpl. rewrite IH.
  f_equal. destruct (Ascii.eqb_spec x c) as [->|Hx]; [|done].
  rewrite (proj2 (Ascii.eqb_neq d y)); [|done].
  by rewrite (proj2 (Ascii.eqb_neq c y)).
Qed.

End ReplaceChar.

(** X17.  Before [atob] the payload is turned from the URL alphabet of
    base64 to the standard one, character by character: the length is
    kept, no ["-"] and no ["_"] is left, each ["-"] has become a ["+"]
    and each ["_"] a ["/"], a payload without them is left as it is, and
    doing it twice is doing it once. *)
Theorem base64FromUrl_alphabet (payload : string) :
  String.length (base64FromUrl payload) = String.length payload /\
  hasChar "-" (base64FromUrl payload) = false /\
  hasChar "_" (base64FromUrl payload) = false /\
  JsText.countChar "+" (base64FromUrl payload)
  = JsText.countChar "+" payload + JsText.countChar "-" payload /\
  JsText.countChar "/" (base64FromUrl payload)
  = JsText.countChar "/" payload + JsText.countChar "_" payload /\
  (if hasChar "-" payload || hasChar "_" payload then True
   else base64FromUrl payload = payload) /\
  base64FromUrl (base64FromUrl payload) = base64FromUrl payload.
Proof.
  unfold base64FromUrl.
  assert (Hminus : hasChar "-" (JsText.replaceChar "_" "/"
                                  (JsText.replaceChar "-" "+" payload)) = false).
  { rewrite hasChar_replaceChar_other; [|done..].
    by apply hasChar_replaceChar_gone. }
  assert (Hunder : hasChar "_" (JsText.replaceChar "_" "/"
                                  (JsText.replaceChar "-" "+" payload)) = false).
  { by apply hasChar_replaceChar_gone. }
  split_and!; try done.
  - by rewrite !length_replaceChar.
  - rewrite countChar_replaceChar_other; [|done..].
    by apply countChar_replaceChar_target.
  - rewrite countChar_replaceChar_target; [|done].
    by rewrite !countChar_replaceChar_other.
  - destruct (hasChar "-" payload) eqn:E1; [done|].
    destruct (hasChar "_" payload) eqn:E2; [done|]. simpl.
    by rewrite (replaceChar_absent "-" "+" payload E1), replaceChar_absent.
  - rewrite (replaceChar_absent "-" "+"); [|exact Hminus].
    by rewrite (replaceChar_absent "_" "/"); [|exact Hunder].
Qed.

Lemma decodeJwtClaims_needs_three_parts_witness :
  extractEmailFromToken Sample2.atob Sample2.parse "header.payload"
  = ([], None).
Proof.
  refine (proj2 (decodeJwtClaims_needs_three_parts
                   Sample2.atob Sample2.parse "header.payload" _)).
  cbn. lia.
Defined.

Lemma decodeJwtClaims_reads_payload_only_witness :
  decodeJwtClaims Sample2.atob Sample2.parse "aaa.e30.zzz"
  = decodeJwtClaims Sample2.atob Sample2.parse ".e30.".
Proof.
  exact (proj2 (decodeJwtClaims_reads_payload_only
                  Sample2.atob Sample2.parse "aaa" "e30" "zzz"
                  eq_refl eq_refl eq_refl)).
Defined.

(** X18 on two tokens: with a numeric [email] and an address in [upn]
    no email is extracted; with an empty [email], no [upn] and an address
    in [unique_name], that address is returned, not the one in
    [preferred_username]. *)
Lemma extractEmailFromToken_first_truthy_claim_witness :
  (extractEmailFromToken Sample2.atob Sample2.parse "aaa.e30.zzz").2 = None /\
  (extractEmailFromToken Sample2.atob Sample2.parseUnique "aaa.e30.zzz").2
  = Some "grace@example.org".
Proof.
  split.
  - destruct (extractEmailFromToken_first_truthy_claim
                Sample2.atob Sample2.parse "aaa.e30.zzz" [] Sample2.claims
                eq_refl)
      as (_ & _ & _ & Hmask & _).
    apply Hmask; [reflexivity|].
    intros s. vm_compute. discriminate.
  - destruct (extractEmailFromToken_first_truthy_claim
                Sample2.atob Sample2.parseUnique "aaa.e30.zzz" []
                Sample2.uniqueClaims eq_refl)
      as (_ & _ & _ & _ & _ & Hunique & _).
    apply Hunique; reflexivity.
Defined.

(* ===================================================================== *)
(** ** The embedded application                                           *)
(* ===================================================================== *)

Lemma existsb_includes origin :
  Editor.isAllowedOrigin origin = true <->
  Substring "intuigence.ai" origin \/ Substring "localhost" origin \/
  Substring "127.0.0.1" origin.
Proof.
  unfold Editor.isAllowedOrigin, Editor.allowedOrigins.
  cbn [existsb]. rewrite orb_false_r, !orb_true_iff, !includes_Substring.
  tauto.
Qed.

Lemma Substring_extend q s pre post :
  Substring q s -> Substring q (pre +:+ s +:+ post).
Proof.
  intros (a & b & ->). exists (pre +:+ a), (b +:+ post).
  by rewrite !append_assoc.
Qed.

(** X19.  A message origin is accepted when it contains ["intuigence.ai"],
    ["localhost"] or ["127.0.0.1"] anywhere: whatever is put before or
    after an accepted origin is accepted as well, so that any host name
    that merely begins with ["intuigence.ai."] or contains ["localhost"]
    passes. *)
Theorem isAllowedOrigin_is_substring_match (origin pre post : string) :
  (Editor.isAllowedOrigin origin = true <->
   Substring "intuigence.ai" origin \/ Substring "localhost" origin \/
   Substring "127.0.0.1" origin) /\
  (Editor.isAllowedOrigin origin = true ->
   Editor.isAllowedOrigin (pre +:+ origin +:+ post) = true) /\
  Editor.isAllowedOrigin ("https://intuigence.ai." +:+ post) = true /\
  Editor.isAllowedOrigin ("https://" +:+ pre +:+ "localhost" +:+ post) = true.
Proof.
  split; [exact (existsb_includes origin)|]. split; [|split].
  - rewrite !existsb_includes.
    intros [H|[H|H]]; eauto using Substring_extend.
  - apply existsb_includes. left. by exists "https://", ("." +:+ post).
  - apply existsb_includes. right. left. by exists ("https://" +:+ pre), post.
Qed.

(** X20.  A message never changes [isLoading] or the loaded context, and
    one from an origin that is not accepted is dropped whole: nothing is
    logged or posted and the state is what it was. *)
Theorem handleMessage_frame
    (baseUrl : string) (contentWindow : bool)
    (event : Editor.MessageEvent) (st : Editor.State) :
  let r := Editor.handleMessage baseUrl contentWindow event st in
  Editor.isLoading r.2 = Editor.isLoading st /\
  Editor.fabricContext r.2 = Editor.fabricContext st /\
  (if Editor.isAllowedOrigin (Editor.origin event) then True
   else r = ([], st)).
Proof.
  cbn zeta. unfold Editor.handleMessage.
  destruct (Editor.isAllowedOrigin (Editor.origin event)); simpl; [|done].
  split_and!; try done;
    destruct (Editor.data event) as [[ty payload]|]; simpl; try done;
    destruct ty as [| | | |ty|]; simpl; try done;
    repeat (match goal with
            | |- context [String.eqb ?a ?b] => destruct (String.eqb a b)
            end; simpl; try done).
Qed.

(** X22.  The context is posted only in answer to an ["APP_READY"]
    message from an accepted origin, only when the context is loaded and
    the frame has a window, and always to [baseUrl]: never to the origin
    of the message, never to a wildcard. *)
Theorem handleMessage_posts_context_to_baseUrl
    (baseUrl : string) (contentWindow : bool)
    (event : Editor.MessageEvent) (st : Editor.State)
    (ty : string) (context : FabricContext.t) (target : string) :
  Editor.PostMessage ty context target
    ∈ (Editor.handleMessage baseUrl contentWindow event st).1 ->
  Editor.isAllowedOrigin (Editor.origin event) = true /\
  (exists d, Editor.data event = Some d /\
             Editor.type d = JsString "APP_READY") /\
  contentWindow = true /\
  Editor.fabricContext st = Some context /\
  ty = "FABRIC_CONTEXT" /\
  target = baseUrl.
Proof.
  unfold Editor.handleMessage.
  destruct (Editor.isAllowedOrigin (Editor.origin event));
    [|by intros ?%elem_of_nil].
  simpl.
  destruct (Editor.data event) as [[t payload]|];
    [|by intros ?%elem_of_nil].
  simpl. destruct t as [| | | |t|]; try by intros ?%elem_of_nil.
  destruct (String.eqb_spec t IntuigenceMessageType.APP_READY) as [->|_].
  - simpl. intros [[=]|H]%elem_of_cons.
    destruct (Editor.fabricContext st) as [c|]; [|by apply elem_of_nil in H].
    destruct contentWindow; [|by apply elem_of_nil in H].
    apply list_elem_of_singleton in H. injection H as -> -> ->.
    split_and!; try done. by eexists.
  - repeat (match goal with
            | |- context [String.eqb ?a ?b] => destruct (String.eqb a b)
            end; simpl;
            try (by intros ?%elem_of_nil);
            try (by intros [=]%list_elem_of_singleton)).
Qed.

Lemma errorOfPayload_truthy payload :
  JsVal.truthy (Editor.errorOfPayload payload) = true.
Proof.
  unfold Editor.errorOfPayload, JsonVal.orElse.
  set (m := match payload with
            | Some p => Editor.message p
            | None => JsUndefined
            end).
  by destruct (JsVal.truthy m) eqn:E.
Qed.

Section EditorRuns.

Variable baseUrl embedMode : string.
Variable parseUrl : string -> Url.t.
Variable t : string -> string -> string.

Hypothesis t_not_empty :
  Js.truthy (t "IntuigenceApp_Error_Load"
               "Failed to load IntuigenceAI application") = true.

Lemma step_keeps_error st ev :
  Editor.isLoading st = false ->
  JsVal.truthy (Editor.error st) = true ->
  Editor.isLoading (Editor.step baseUrl t st ev) = false /\
  JsVal.truthy (Editor.error (Editor.step baseUrl t st ev)) = true.
Proof.
  intros Hloading Herror.
  destruct ev as [getItem itemObjectId|contentWindow event| |]; simpl;
    try done.
  pose proof (handleMessage_frame baseUrl contentWindow event st)
    as (Hl & _ & _).
  cbn zeta in Hl. rewrite Hl. split; [done|].
  unfold Editor.handleMessage.
  destruct (Editor.isAllowedOrigin (Editor.origin event)); simpl; [|done].
  destruct (Editor.data event) as [[ty payload]|]; simpl; try done.
  destruct ty as [| | | |ty|]; simpl; try done.
  repeat (match goal with
          | |- context [String.eqb ?a ?b] => destruct (String.eqb a b)
          end; simpl; try done).
  apply errorOfPayload_truthy.
Qed.

(** X21.  Once the editor has left its loading state and holds an error,
    it shows the error view for good: no message, frame event or context
    load clears the error, so the frame is not rendered again. *)
Theorem editor_error_is_final (st : Editor.State) (evs : list Editor.Event) :
  Editor.isLoading st = false ->
  JsVal.truthy (Editor.error st) = true ->
  exists e,
    Editor.render baseUrl embedMode parseUrl (Editor.run baseUrl t st evs)
    = Editor.ErrorView e /\
    JsVal.truthy e = true.
Proof.
  intros Hloading Herror.
  assert (H : Editor.isLoading (Editor.run baseUrl t st evs) = false /\
              JsVal.truthy (Editor.error (Editor.run baseUrl t st evs)) = true).
  { unfold Editor.run. revert st Hloading Herror.
    induction evs as [|ev evs IH]; intros st Hloading Herror; [done|].
    simpl. destruct (step_keeps_error st ev Hloading Herror). by apply IH. }
  destruct H as [Hl He]. unfold Editor.render. rewrite Hl, He. by eexists.
Qed.

End EditorRuns.

Lemma handleMessage_posts_context_to_baseUrl_witness :
  Editor.PostMessage "FABRIC_CONTEXT" Sample2.context Sample2.baseUrl
    ∈ (Editor.handleMessage Sample2.baseUrl true
                            (Sample2.message "APP_READY") Sample2.loaded).1 /\
  Editor.isAllowedOrigin (Editor.origin (Sample2.message "APP_READY")) = true.
Proof.
  assert (H : Editor.PostMessage "FABRIC_CONTEXT" Sample2.context Sample2.baseUrl
                ∈ (Editor.handleMessage Sample2.baseUrl true
                     (Sample2.message "APP_READY") Sample2.loaded).1).
  { apply elem_of_cons. right. apply elem_of_cons. by left. }
  split; [exact H|].
  exact (proj1 (handleMessage_posts_context_to_baseUrl
                  Sample2.baseUrl true (Sample2.message "APP_READY")
                  Sample2.loaded "FABRIC_CONTEXT" Sample2.context
                  Sample2.baseUrl H)).
Defined.

(** X21 on the sample editor: after an ["APP_ERROR"] message, the load
    of the frame and an ["APP_READY"] message leave the error view. *)
Lemma editor_error_is_final_witness :
  let st :=
    (Editor.handleMessage Sample2.baseUrl true
                          (Sample2.message "APP_ERROR") Sample2.loaded).2 in
  exists e,
    Editor.render Sample2.baseUrl Sample2.embedMode Sample2.parseUrl
      (Editor.run Sample2.baseUrl Sample2.t st
                  [Editor.IframeLoad;
                   Editor.Message true (Sample2.message "APP_READY")])
    = Editor.ErrorView e /\
    JsVal.truthy e = true.
Proof.
  cbn zeta.
  exact (editor_error_is_final
           Sample2.baseUrl Sample2.embedMode Sample2.parseUrl Sample2.t
           eq_refl
           (Editor.handleMessage Sample2.baseUrl true
                                 (Sample2.message "APP_ERROR") Sample2.loaded).2
           [Editor.IframeLoad;
            Editor.Message true (Sample2.message "APP_READY")]
           eq_refl eq_refl).
Defined.

(** *** The query of the frame URL *)

Lemma getAll_without name params :
  Url.getAll name
    (List.filter (fun kv => negb (String.eqb kv.1 name)) params) = [].
Proof.
  unfold Url.getAll. induction params as [|[k v] rest IH]; [done|]. simpl.
  destruct (String.eqb k name) eqn:E; simpl; [done|]. by rewrite E.
Qed.

Lemma getAll_without_other name other params :
  String.eqb other name = false ->
  Url.getAll other
    (List.filter (fun kv => negb (String.eqb kv.1 name)) params)
  = Url.getAll other params.
Proof.
  intros Hne. unfold Url.getAll.
  induction params as [|[k v] rest IH]; [done|]. simpl.
  destruct (String.eqb_spec k name) as [->|Hk]; simpl.
  - by rewrite String.eqb_sym, Hne.
  - destruct (String.eqb k other); simpl; by rewrite IH.
Qed.

Lemma getAll_set_same name value params :
  Url.getAll name (Url.set name value params) = [value].
Proof.
  induction params as [|[k v] rest IH]; simpl.
  - unfold Url.getAll. simpl. by rewrite String.eqb_refl.
  - destruct (String.eqb k name) eqn:E.
    + unfold Url.getAll. simpl. rewrite String.eqb_refl. simpl. f_equal.
      apply getAll_without.
    + unfold Url.getAll in *. simpl. by rewrite E.
Qed.

Lemma getAll_set_other name other value params :
  String.eqb other name = false ->
  Url.getAll other (Url.set name value params) = Url.getAll other params.
Proof.
  intros Hne. induction params as [|[k v] rest IH]; simpl.
  - unfold Url.getAll. simpl. by rewrite String.eqb_sym, Hne.
  - destruct (String.eqb_spec k name) as [->|Hk].
    + unfold Url.getAll at 1. simpl. rewrite (String.eqb_sym name other), Hne.
      fold (Url.getAll other
              (List.filter (fun kv => negb (String.eqb kv.1 name)) rest)).
      rewrite getAll_without_other by done.
      unfold Url.getAll. simpl. by rewrite (String.eqb_sym name other), Hne.
    + unfold Url.getAll in *. simpl.
      destruct (String.eqb k other); simpl; by rewrite IH.
Qed.

Lemma filter_without_idem name (params : list (string * string)) :
  List.filter (fun kv => negb (String.eqb kv.1 name))
    (List.filter (fun kv => negb (String.eqb kv.1 name)) params)
  = List.filter (fun kv => negb (String.eqb kv.1 name)) params.
Proof.
  induction params as [|[k v] rest IH]; [done|]. simpl.
  destruct (String.eqb k name) eqn:E; simpl; [done|]. by rewrite E, IH.
Qed.

(** [searchParams.set] leaves exactly one value under the name it
    sets, leaves the values under every other name as they were, and
    setting the same pair twice is setting it once. *)
Theorem Url_set_getAll (name other value : string)
    (params : list (string * string)) :
  Url.getAll name (Url.set name value params) = [value] /\
  (if String.eqb other name then True
   else Url.getAll other (Url.set name value params)
        = Url.getAll other params) /\
  Url.set name value (Url.set name value params) = Url.set name value params.
Proof.
  split; [apply getAll_set_same|]. split.
  - destruct (String.eqb other name) eqn:E; [done|].
    by apply getAll_set_other.
  - induction params as [|[k v] rest IH]; simpl.
    + by rewrite String.eqb_refl.
    + destruct (String.eqb k name) eqn:E; simpl.
      * rewrite String.eqb_refl. f_equal. apply filter_without_idem.
      * by rewrite E, IH.
Qed.

Section FrameUrl.

Variable baseUrl embedMode : string.
Variable parseUrl : string -> Url.t.

Lemma setIfTruthy_getAll name other value url :
  Url.getAll other (Url.searchParams (Editor.setIfTruthy name value url))
  = if String.eqb other name && Js.truthyOpt value
    then [default "" value]
    else Url.getAll other (Url.searchParams url).
Proof.
  unfold Editor.setIfTruthy.
  destruct value as [v|]; simpl; [|by rewrite andb_false_r].
  destruct (Js.truthy v); simpl; [|by rewrite andb_false_r].
  rewrite andb_true_r.
  destruct (String.eqb_spec other name) as [->|Hne].
  - apply getAll_set_same.
  - apply getAll_set_other. by apply String.eqb_neq.
Qed.

Lemma setIfTruthy_base name value url :
  Url.base (Editor.setIfTruthy name value url) = Url.base url.
Proof.
  unfold Editor.setIfTruthy. destruct value as [v|]; [|done].
  by destruct (Js.truthy v).
Qed.

(** X23.  The frame URL keeps everything of the base URL but its query;
    in the query [embed] is the configured mode alone, [workspaceId],
    [itemId], [itemName] and [loginHint] are set to the context's value
    when that is a non-empty string and are left as the base URL has them
    otherwise, and every other parameter of the base URL is kept.  A
    context made by [loadFabricContext] has no user email, so it never
    sets [loginHint]. *)
Theorem buildIframeUrl_query
    (context : option FabricContext.t) (other : string)
    (getItem : string -> Result (option ItemDetails.t))
    (itemObjectId : option string) :
  let url := Editor.buildIframeUrl baseUrl embedMode parseUrl context in
  let q name := Url.getAll name (Url.searchParams url) in
  let q0 name := Url.getAll name (Url.searchParams (parseUrl baseUrl)) in
  let field name value :=
    q name = if Js.truthyOpt value then [default "" value] else q0 name in
  Url.base url = Url.base (parseUrl baseUrl) /\
  q "embed" = [embedMode] /\
  field "workspaceId" (FabricContext.workspaceId <$> context) /\
  field "itemId" (FabricContext.itemId <$> context) /\
  field "itemName" (context ≫= FabricContext.itemName) /\
  field "loginHint" (context ≫= FabricContext.userEmail) /\
  (if existsb (String.eqb other)
              ["embed"; "workspaceId"; "itemId"; "itemName"; "loginHint"]
   then True else q other = q0 other) /\
  FabricContext.userEmail (Editor.loadFabricContext getItem itemObjectId).2
  = None.
Proof.
  cbn zeta. unfold Editor.buildIframeUrl.
  split_and!.
  - by rewrite !setIfTruthy_base.
  - rewrite !setIfTruthy_getAll. simpl. apply getAll_set_same.
  - rewrite !setIfTruthy_getAll. simpl.
    destruct (Js.truthyOpt (FabricContext.workspaceId <$> context)); [done|].
    by apply getAll_set_other.
  - rewrite !setIfTruthy_getAll. simpl.
    destruct (Js.truthyOpt (FabricContext.itemId <$> context)); [done|].
    by apply getAll_set_other.
  - rewrite !setIfTruthy_getAll. simpl.
    destruct (Js.truthyOpt (context ≫= FabricContext.itemName)); [done|].
    by apply getAll_set_other.
  - rewrite !setIfTruthy_getAll. simpl.
    destruct (Js.truthyOpt (context ≫= FabricContext.userEmail)); [done|].
    by apply getAll_set_other.
  - simpl. rewrite !orb_false_r.
    destruct (String.eqb other "embed") eqn:E1; [done|].
    destruct (String.eqb other "workspaceId") eqn:E2; [done|].
    destruct (String.eqb other "itemId") eqn:E3; [done|].
    destruct (String.eqb other "itemName") eqn:E4; [done|].
    destruct (String.eqb other "loginHint") eqn:E5; [done|]. simpl.
    rewrite !setIfTruthy_getAll, E2, E3, E4, E5. simpl.
    by apply getAll_set_other.
  - unfold Editor.loadFabricContext. simpl.
    destruct itemObjectId as [itemId|]; [|done].
    destruct (Js.truthy itemId); [|done].
    destruct (getItem itemId) as [[[ [item|] ]|]|e]; done.
Qed.

End FrameUrl.

(* ===================================================================== *)
(** ** The catalog page                                                   *)
(* ===================================================================== *)

Lemma isPreviewable_isImage_isPdf n :
  isPreviewable n = isImage n || isPdf n.
Proof.
  unfold isPreviewable, isImage, isPdf.
  rewrite PREVIEWABLE_is_IMAGE_plus_pdf.
  apply eq_true_iff_eq.
  rewrite orb_true_iff, !bool_decide_eq_true. set_solver.
Qed.

(** No name is both an image and a PDF. *)
Lemma isPdf_not_isImage n : isPdf n = true -> isImage n = false.
Proof.
  unfold isPdf, isImage. intros ->%bool_decide_eq_true. by vm_compute.
Qed.

Lemma isPdf_eqb n : isPdf n = String.eqb (getFileExtension n) "pdf".
Proof.
  unfold isPdf. destruct (String.eqb_spec (getFileExtension n) "pdf") as [H|H].
  - by apply bool_decide_eq_true.
  - by apply bool_decide_eq_false.
Qed.

(** X24.  The icon of a file agrees with what the preview can do with
    it: the PDF icon exactly for the names [isPdf] accepts, the image
    icon exactly for those [isImage] accepts, and the plain document icon
    exactly for the names that are not previewable. *)
Theorem renderFileIcon_matches_predicates (file : OneLakeFile.t) :
  let name := OneLakeFile.name file in
  (Page.renderFileIcon file = Page.DocumentPdfRegular_red
   <-> isPdf name = true) /\
  (Page.renderFileIcon file = Page.ImageRegular_purple
   <-> isImage name = true) /\
  (Page.renderFileIcon file = Page.DocumentRegular_neutral
   <-> isPreviewable name = false).
Proof.
  cbn zeta. unfold Page.renderFileIcon.
  rewrite isPreviewable_isImage_isPdf, <- isPdf_eqb.
  destruct (isPdf (OneLakeFile.name file)) eqn:Hpdf.
  - rewrite (isPdf_not_isImage _ Hpdf). by repeat split.
  - destruct (isImage (OneLakeFile.name file)); by repeat split.
Qed.

(** X25.  For a preview in one of its three shapes whose blob URL, if
    any, is not empty, the content area shows exactly one block: the
    spinner while loading, the error text after a failure, and for a
    ready preview the image when the name is an image, else the PDF card
    when it is a PDF, else the download card. *)
Theorem renderPreviewContent_one_panel (preview : FilePreview.t) :
  PreviewShape preview ->
  (forall url, FilePreview.blobUrl preview = Some url -> Js.truthy url = true) ->
  let name := OneLakeFile.name (FilePreview.file preview) in
  exists panel,
    Page.renderPreviewContent preview = [panel] /\
    (FilePreview.loading preview = true -> panel = Page.LoadingSpinner) /\
    (forall error, FilePreview.error preview = Some error ->
                   panel = Page.ErrorText error) /\
    (forall url, FilePreview.blobUrl preview = Some url ->
                 panel = if isImage name then Page.ImageView url name
                         else if isPdf name then Page.PdfCard name
                         else Page.DownloadCard name).
Proof.
  intros Hshape Hurl. cbn zeta. unfold Page.renderPreviewContent.
  destruct Hshape as [(Hb & Hl & He)|[(url & Hb & Hl & He)|(detail & Hb & Hl & He)]];
    rewrite Hb, Hl, He.
  - eexists. by repeat split.
  - simpl. rewrite (Hurl url Hb), isPreviewable_isImage_isPdf.
    destruct (isPdf _) eqn:Hpdf.
    + rewrite (isPdf_not_isImage _ Hpdf). eexists.
      split; [done|]. split; [done|]. split; [done|]. by intros ? [= <-].
    + destruct (isImage _); eexists;
        (split; [done|]); (split; [done|]); (split; [done|]);
        by intros ? [= <-].
  - assert (Ht : Js.truthy ("Failed to load file: " +:+ detail) = true) by done.
    cbn [Js.truthyOpt]. rewrite Ht. simpl. eexists.
    split; [done|]. split; [done|]. split; [|done]. by intros error [= <-].
Qed.

(** X25 on a ready preview of an image. *)
Lemma renderPreviewContent_one_panel_witness :
  Page.renderPreviewContent
    {| FilePreview.file := Sample2.fileX;
       FilePreview.blobUrl := Some "blob:x";
       FilePreview.loading := false;
       FilePreview.error := None |}
  = [Page.ImageView "blob:x" "x.png"].
Proof.
  destruct (renderPreviewContent_one_panel
              {| FilePreview.file := Sample2.fileX;
                 FilePreview.blobUrl := Some "blob:x";
                 FilePreview.loading := false;
                 FilePreview.error := None |})
    as (panel & Hpanel & _ & _ & Hready).
  - right. left. by exists "blob:x".
  - by intros url [= <-].
  - rewrite Hpanel, (Hready "blob:x" eq_refl). by vm_compute.
Defined.

Lemma NoDup_fmap_filter {A B} (g : A -> B) (p : A -> bool) (l : list A) :
  NoDup (g <$> l) -> NoDup (g <$> List.filter p l).
Proof.
  induction l as [|a l IH]; [done|].
  rewrite fmap_cons, NoDup_cons. intros [Ha Hl]. simpl.
  destruct (p a); [|by apply IH].
  rewrite fmap_cons, NoDup_cons. split; [|by apply IH].
  intros (b & Hb & Hin)%list_elem_of_fmap. apply Ha.
  apply list_elem_of_fmap. exists b. split; [done|].
  apply list_elem_of_In. by apply list_elem_of_In, filter_In in Hin as [? _].
Qed.

Lemma filter_eqb_at_most_one {A} (g : A -> string) (x : string) (l : list A) :
  NoDup (g <$> l) ->
  length (List.filter (fun a => String.eqb x (g a)) l) <= 1.
Proof.
  induction l as [|a l IH]; [simpl; lia|].
  rewrite fmap_cons, NoDup_cons. intros [Ha Hl]. simpl.
  destruct (String.eqb_spec x (g a)) as [->|Hne]; [|by apply IH].
  assert (Hnone : List.filter (fun b => String.eqb (g a) (g b)) l = []).
  { clear IH Hl. induction l as [|b l IH]; [done|]. simpl.
    destruct (String.eqb_spec (g a) (g b)) as [Heq|_].
    - destruct Ha. rewrite Heq, fmap_cons. by left.
    - apply IH. intros Hin. apply Ha. rewrite fmap_cons. by right. }
  rewrite Hnone. simpl. lia.
Qed.

(** X26.  The rows of the file list are the visible files in their
    order, and a row is drawn as selected exactly when its [fullPath] is
    that of the previewed file; when the [fullPath]s of [files] are
    pairwise distinct, at most one row is drawn as selected. *)
Theorem renderFileList_selects_at_most_one
    (st : State.t) (rows : list (OneLakeFile.t * bool)) :
  FullPathsUnique st ->
  Page.renderFileList st = Page.Rows rows ->
  rows.*1 = filteredFiles st /\
  (forall file selected,
      (file, selected) ∈ rows ->
      selected = true <->
      exists preview,
        State.selectedFile st = Some preview /\
        OneLakeFile.fullPath (FilePreview.file preview)
        = OneLakeFile.fullPath file) /\
  length (List.filter snd rows) <= 1.
Proof.
  intros Hunique. unfold Page.renderFileList.
  destruct (State.loading st); [done|].
  destruct (_ && _); [done|]. intros [= <-].
  split; [|split].
  - rewrite <- list_fmap_compose. apply list_fmap_id.
  - intros file selected (f & [= -> ->] & _)%list_elem_of_fmap.
    unfold Page.isSelected.
    destruct (State.selectedFile st) as [preview|].
    + rewrite String.eqb_eq. split.
      * intros H. by exists preview.
      * by intros (? & [= <-] & ?).
    + split; [done|]. by intros (? & ? & _).
  - unfold FullPathsUnique in Hunique.
    assert (Hvisible : NoDup (OneLakeFile.fullPath <$> filteredFiles st)).
    { unfold filteredFiles. destruct (Js.truthy _); [|done].
      by apply NoDup_fmap_filter. }
    clear Hunique.
    assert (Hlen : forall l : list OneLakeFile.t,
               length (List.filter snd
                         (List.map (fun file =>
                                      (file, Page.isSelected
                                               (State.selectedFile st) file)) l))
               = length (List.filter (Page.isSelected (State.selectedFile st)) l)).
    { induction l as [|a l IH]; [done|]. simpl.
      destruct (Page.isSelected _ a); simpl; by rewrite IH. }
    rewrite Hlen. unfold Page.isSelected.
    destruct (State.selectedFile st) as [preview|].
    + by apply filter_eqb_at_most_one.
    + clear. induction (filteredFiles st) as [|a l IH]; simpl; lia.
Qed.

(** X26 on a list of two files with the second one selected. *)
Lemma renderFileList_selects_at_most_one_witness :
  let st :=
    Hook.state
      (Hook.run (Hook.mount Sample.client)
                [Hook.LoadFilesSettled
                   [] (Listed "ws1" [Sample2.fileX; Sample2.fileY]);
                 Hook.SelectFileCalled Sample2.fileY]) in
  let rows := [(Sample2.fileX, false); (Sample2.fileY, true)] in
  Page.renderFileList st = Page.Rows rows /\
  rows.*1 = filteredFiles st /\
  length (List.filter snd rows) <= 1.
Proof.
  cbn zeta. split; [reflexivity|].
  destruct (renderFileList_selects_at_most_one
              (Hook.state
                 (Hook.run (Hook.mount Sample.client)
                    [Hook.LoadFilesSettled
                       [] (Listed "ws1" [Sample2.fileX; Sample2.fileY]);
                     Hook.SelectFileCalled Sample2.fileY]))
              [(Sample2.fileX, false); (Sample2.fileY, true)])
    as (Hrows & _ & Hone).
  - unfold FullPathsUnique. simpl.
    apply NoDup_cons. split; [|apply NoDup_singleton].
    by intros [=]%list_elem_of_singleton.
  - reflexivity.
  - split; [exact Hrows|exact Hone].
Defined.

(* ===================================================================== *)
(** ** A build among other builds                                         *)
(* ===================================================================== *)

(** An event that is not an error-setting settlement keeps a null
    [error] null. *)
Lemma step_keeps_null_error h ev :
  setsError ev = false ->
  State.error (Hook.state h) = None ->
  State.error (Hook.state (Hook.step h ev)) = None.
Proof.
  destruct ev as [|log [| | |]|file|file [url|err]| | | |]; simpl; try done;
    by destruct (Hook.clientRef h).
Qed.

Lemma run_keeps_null_error h evs :
  forallb (fun ev => negb (setsError ev)) evs = true ->
  State.error (Hook.state h) = None ->
  State.error (Hook.state (Hook.run h evs)) = None.
Proof.
  unfold Hook.run. revert h.
  induction evs as [|ev evs IH]; intros h Hevs Herr; [done|].
  simpl in Hevs. apply andb_true_iff in Hevs as [Hev Hevs]. simpl.
  apply IH; [done|]. apply step_keeps_null_error; [|done].
  by destruct (setsError ev).
Qed.

Section PartialFailure.

Variable getPath : string -> string -> string -> string.
Variable parseNumber : string -> option Z.
Variable workloadClient : WorkloadClientAPI.
Variable client : FabricPlatformAPIClient.
Variable itemObjectId : option string.

(** The awaited part of a build that reaches step 3. *)
Lemma loadFilesRun_listed ws allItems :
  (resolveWorkspace workloadClient client itemObjectId).2 = Ok (Some ws) ->
  Js.truthy ws = true ->
  getAllItems client ws = Ok allItems ->
  List.filter isLakehouse allItems <> [] ->
  loadFilesRun getPath parseNumber workloadClient client itemObjectId
  = ((resolveWorkspace workloadClient client itemObjectId).1
       ++ (List.filter isLakehouse allItems ≫= warningsOf client ws),
     Listed ws (List.filter isLakehouse allItems
                  ≫= filesOf getPath parseNumber client ws)).
Proof.
  intros Hws Hne Hitems Hlake. unfold loadFilesRun.
  rewrite (loadFilesTry_resolved _ _ _ _ _ ws Hws Hne), listWorkspace_cases.
  rewrite Hitems. by destruct (List.filter isLakehouse allItems).
Qed.

(** C3, amended.  The listing of Lakehouse [a] fails and that of
    Lakehouse [b] succeeds.  Whatever is handled while the build awaits,
    other builds included, the build completes: it settles by listing,
    with [loading] false, the workspace id set, the files of [b] in
    [files] and none from [a]; the failure of [a] is logged as a warning
    and nothing is logged as an error.  Its commit does not set [error]:
    it leaves [error] as it finds it, and that is null (it was cleared
    when the build started) when no other build has ended in an error
    in the meantime. *)
Theorem loadFiles_tolerates_partial_failure_among_builds
    (h : Hook.t) (between : list Hook.Event)
    (ws : string) (allItems : list Item.t) (a b : Item.t)
    (e : Thrown) (metadata : PathMetadata.t) :
  is_Some (Hook.clientRef h) ->
  (resolveWorkspace workloadClient client itemObjectId).2 = Ok (Some ws) ->
  Js.truthy ws = true ->
  getAllItems client ws = Ok allItems ->
  a ∈ List.filter isLakehouse allItems ->
  b ∈ List.filter isLakehouse allItems ->
  getPathMetadata client ws (Item.id a +:+ "/Files") true false = Throw e ->
  getPathMetadata client ws (Item.id b +:+ "/Files") true false
  = Ok metadata ->
  let r :=
    loadFilesRun getPath parseNumber workloadClient client itemObjectId in
  let before := Hook.run h (Hook.LoadFilesCalled :: between) in
  let h' := Hook.step before (Hook.LoadFilesSettled r.1 r.2) in
  (exists allFiles, r.2 = Listed ws allFiles) /\
  State.loading (Hook.state h') = false /\
  State.workspaceId (Hook.state h') = Some ws /\
  State.files (Hook.state h')
  = List.filter isLakehouse allItems
      ≫= filesOf getPath parseNumber client ws /\
  (forall p,
      p ∈ default [] (PathMetadata.paths metadata) ->
      isDirectoryEntry p = false ->
      toFile getPath parseNumber ws b p ∈ State.files (Hook.state h')) /\
  filesOf getPath parseNumber client ws a = [] /\
  lakehouseWarning a e ∈ r.1 /\
  (forall msg err, ConsoleError msg err ∉ r.1) /\
  State.error (Hook.state h') = State.error (Hook.state before) /\
  (forallb (fun ev => negb (setsError ev)) between = true ->
   State.error (Hook.state h') = None).
Proof.
  intros [c Hclient] Hws Hne Hitems Ha Hb Hfail Hok r before h'.
  subst r h'.
  rewrite (loadFilesRun_listed ws allItems Hws Hne Hitems);
    [|by intros Hnil; rewrite Hnil in Ha; apply elem_of_nil in Ha].
  cbn [fst snd Hook.step Hook.update Hook.state loadFilesCommit
       State.loading State.workspaceId State.files State.error].
  split_and!; try done.
  - by eexists.
  - intros p Hp Hdir. apply list_elem_of_bind. exists b. split; [|done].
    unfold filesOf, fileEntriesOf, entriesOf. rewrite Hok.
    apply list_elem_of_fmap_2, list_elem_of_In, filter_In.
    split; [by apply list_elem_of_In|by rewrite Hdir].
  - unfold filesOf, fileEntriesOf, entriesOf. by rewrite Hfail.
  - apply elem_of_app. right. apply list_elem_of_bind. exists a.
    split; [|done]. unfold warningsOf. rewrite Hfail.
    by apply list_elem_of_singleton.
  - intros msg err [H|H]%elem_of_app.
    + by destruct (resolveWorkspace_log _ _ _ _ H).
    + by destruct (warningsOf_log _ _ _ _ H) as (? & ? & _ & ?).
  - intros Hbetween. subst before.
    change (Hook.run h (Hook.LoadFilesCalled :: between))
      with (Hook.run (Hook.step h Hook.LoadFilesCalled) between).
    apply run_keeps_null_error; [done|]. simpl. by rewrite Hclient.
Qed.

End PartialFailure.

(** On the sample workspace [lhA] is refused and [lhB] is listed.  While
    that build awaits, Refresh starts a second build, whose item listing
    is refused and which settles first with "HTTP 403: Forbidden"; the
    first build then commits the files of [lhB] and leaves that error in
    place. *)
Lemma overlapped_build_keeps_other_error :
  ~ BuildEndsWithNullError
      (Hook.mount Sample.client)
      [Hook.LoadFilesCalled;
       Hook.LoadFilesSettled
         (loadFilesRun Sample.getPath Sample.parseNumber
                       Sample.workloadClient Sample.refused
                       (Some "item-1")).1
         (loadFilesRun Sample.getPath Sample.parseNumber
                       Sample.workloadClient Sample.refused
                       (Some "item-1")).2]
      (loadFilesRun Sample.getPath Sample.parseNumber
                    Sample.workloadClient Sample.client (Some "item-1")).1
      (loadFilesRun Sample.getPath Sample.parseNumber
                    Sample.workloadClient Sample.client (Some "item-1")).2.
Proof. unfold BuildEndsWithNullError. vm_compute. discriminate. Qed.

(** C3, as stated, fails: the build above meets every condition of the
    claim, the listing of [lhA] failing and that of [lhB] succeeding, and
    ends with the error of the other build. *)
Lemma PartialFailureEndsWithNullError_counterexample :
  ~ PartialFailureEndsWithNullError.
Proof.
  intros Hclaim. apply overlapped_build_keeps_other_error.
  apply (Hclaim Sample.getPath Sample.parseNumber Sample.workloadClient
                Sample.client (Some "item-1") (Hook.mount Sample.client) _
                "ws1" [Sample.lhA; Sample.notebook; Sample.lhB]
                Sample.lhA Sample.lhB Sample.forbidden
                {| PathMetadata.paths := Some [Sample.folder; Sample.doc] |}).
  - by eexists.
  - reflexivity.
  - reflexivity.
  - reflexivity.
  - apply elem_of_cons. by left.
  - apply elem_of_cons. right. apply elem_of_cons. by left.
  - reflexivity.
  - reflexivity.
Qed.

(** What that run ends with: the file of [lhB] and the other build's
    error. *)
Example overlapped_builds_end_state :
  let failing :=
    loadFilesRun Sample.getPath Sample.parseNumber Sample.workloadClient
                 Sample.refused (Some "item-1") in
  let tolerant :=
    loadFilesRun Sample.getPath Sample.parseNumber Sample.workloadClient
                 Sample.client (Some "item-1") in
  let h :=
    Hook.run (Hook.mount Sample.client)
             [Hook.LoadFilesCalled;
              Hook.LoadFilesCalled;
              Hook.LoadFilesSettled failing.1 failing.2;
              Hook.LoadFilesSettled tolerant.1 tolerant.2] in
  OneLakeFile.fullPath <$> State.files (Hook.state h)
  = ["ws1/lhB/Files/sub/doc.pdf"] /\
  State.error (Hook.state h) = Some "HTTP 403: Forbidden" /\
  State.loading (Hook.state h) = false.
Proof. vm_compute. by repeat split. Qed.

(** C3, amended, on the sample workspace: while the build awaits, a file
    is selected and a second build is started and settles by listing. *)
Lemma loadFiles_tolerates_partial_failure_among_builds_witness :
  let r :=
    loadFilesRun Sample.getPath Sample.parseNumber Sample.workloadClient
                 Sample.client (Some "item-1") in
  let h' :=
    Hook.run (Hook.mount Sample.client)
             [Hook.LoadFilesCalled;
              Hook.SelectFileCalled Sample2.fileX;
              Hook.LoadFilesCalled;
              Hook.LoadFilesSettled [] (Listed "ws0" [Sample2.fileY]);
              Hook.LoadFilesSettled r.1 r.2] in
  State.error (Hook.state h') = None /\
  State.loading (Hook.state h') = false /\
  toFile Sample.getPath Sample.parseNumber "ws1" Sample.lhB Sample.doc
    ∈ State.files (Hook.state h') /\
  lakehouseWarning Sample.lhA Sample.forbidden ∈ r.1.
Proof.
  cbn zeta.
  destruct (loadFiles_tolerates_partial_failure_among_builds
              Sample.getPath Sample.parseNumber Sample.workloadClient
              Sample.client (Some "item-1")
              (Hook.mount Sample.client)
              [Hook.SelectFileCalled Sample2.fileX;
               Hook.LoadFilesCalled;
               Hook.LoadFilesSettled [] (Listed "ws0" [Sample2.fileY])]
              "ws1" [Sample.lhA; Sample.notebook; Sample.lhB]
              Sample.lhA Sample.lhB Sample.forbidden
              {| PathMetadata.paths := Some [Sample.folder; Sample.doc] |})
    as (_ & Hloading & _ & _ & Hfiles & _ & Hwarn & _ & _ & Herror).
  - by eexists.
  - reflexivity.
  - reflexivity.
  - reflexivity.
  - apply elem_of_cons. by left.
  - apply elem_of_cons. right. apply elem_of_cons. by left.
  - reflexivity.
  - reflexivity.
  - split; [exact (Herror eq_refl)|]. split; [exact Hloading|].
    split; [|exact Hwarn].
    apply Hfiles; [|reflexivity].
    apply elem_of_cons. right. apply elem_of_cons. by left.
Defined.

(* ===================================================================== *)
(** ** Uniqueness on a fuller listing                                     *)
(* ===================================================================== *)


